(** * TensileTestAnalyzer: the [/analyze] pipeline of [app.py]

    A shallow embedding of the request handler [analyze] of
    [src/TensileTestAnalyzer/app.py] and of the numpy operations it calls,
    followed by the properties of the stress-strain pipeline.

    Numbers are IEEE-754 binary64 values (numpy's [float64], Python's
    [float]), embedded as Rocq's primitive [float]; one-dimensional arrays
    are lists; Python exceptions are values of an error monad. *)

From Stdlib Require Import ZArith Bool Lia String Ascii List Floats Uint63.
Import ListNotations.

Set Warnings "-inexact-float".

(** ** Python exceptions and the error monad *)

Inductive exn : Type :=
| ValueError
| IndexError
| TypeError.

Inductive py (A : Type) : Type :=
| Ret (a : A)
| Raise (e : exn).
Arguments Ret {A} a.
Arguments Raise {A} e.

Definition bind {A B : Type} (m : py A) (k : A -> py B) : py B :=
  match m with
  | Ret a => k a
  | Raise e => Raise e
  end.

Notation "x <- m ;; k" := (bind m (fun x => k))
  (at level 61, m at next level, right associativity).

(** [try: body / except ValueError: handler]: only a [ValueError] is caught. *)
Definition try_except_ValueError {A : Type} (body : py A) (handler : py A) : py A :=
  match body with
  | Raise ValueError => handler
  | other => other
  end.

Definition is_Ret {A : Type} (m : py A) : bool :=
  match m with Ret _ => true | Raise _ => false end.

(** ** Arrays *)

Definition ndarray := list float.

(** Element-wise binary operation on two arrays of the same shape. *)
Fixpoint map2 {A B C : Type} (f : A -> B -> C) (l : list A) (r : list B) : list C :=
  match l, r with
  | a :: l', b :: r' => f a b :: map2 f l' r'
  | _, _ => []
  end.

(** [arr[mask]]: the entries of [arr] where the boolean mask is [True]. *)
Fixpoint mask_select {A : Type} (arr : list A) (mask : list bool) : list A :=
  match arr, mask with
  | a :: arr', b :: mask' =>
      if b then a :: mask_select arr' mask' else mask_select arr' mask'
  | _, _ => []
  end.

(** [arr[i]] for a Python integer [i]: a negative index counts from the end,
    and an index outside [-len, len) raises [IndexError]. *)
Definition getitem (arr : ndarray) (i : Z) : py float :=
  let n := Z.of_nat (length arr) in
  let j := if (i <? 0)%Z then (n + i)%Z else i in
  if ((0 <=? j) && (j <? n))%Z
  then match nth_error arr (Z.to_nat j) with
       | Some x => Ret x
       | None => Raise IndexError
       end
  else Raise IndexError.

(** [float(n)] for a length [n]. *)
Definition float_of_nat (n : nat) : float :=
  PrimFloat.of_uint63 (Uint63.of_Z (Z.of_nat n)).

(** [int(x)] for a finite float: truncation toward zero.  (Python raises on
    NaN and on infinities; the pipeline only converts [len * 0.2].) *)
Definition py_int (x : float) : Z :=
  match Prim2SF x with
  | S754_finite s m e =>
      let a := Z.shiftl (Z.pos m) e in
      if s then (- a)%Z else a
  | _ => 0%Z
  end.

(** ** numpy *)

Module np.
Open Scope float_scope.

(** [np.diff]: [x[1:] - x[:-1]]. *)
Definition diff (x : ndarray) : ndarray :=
  match x with
  | [] => []
  | _ :: t => map2 PrimFloat.sub t x
  end.

(** Interior points of [np.gradient], constant spacing [dx]:
    [(f[2:] - f[:-2]) / (2. * dx)]. *)
Definition interior_uniform (f : ndarray) (dx : float) : ndarray :=
  map2 (fun lo hi => (hi - lo) / (2 * dx)) f (skipn 2 f).

(** Interior points of [np.gradient], spacing array [dx = diff x]:
    [a * f[:-2] + b * f[1:-1] + c * f[2:]] with
    [a = -(dx2)/(dx1 * (dx1 + dx2))], [b = (dx2 - dx1) / (dx1 * dx2)],
    [c = dx1 / (dx2 * (dx1 + dx2))], [dx1 = dx[0:-1]], [dx2 = dx[1:]]. *)
Fixpoint interior_nonuniform (f dx : ndarray) : ndarray :=
  match f, dx with
  | f0 :: ((f1 :: f2 :: _) as f'), dx1 :: ((dx2 :: _) as dx') =>
      let a := (- dx2) / (dx1 * (dx1 + dx2)) in
      let b := (dx2 - dx1) / (dx1 * dx2) in
      let c := dx1 / (dx2 * (dx1 + dx2)) in
      (a * f0 + b * f1 + c * f2) :: interior_nonuniform f' dx'
  | _, _ => []
  end.

(** First-order one-sided difference at the last point:
    [(f[-1] - f[-2]) / dx_n]. *)
Definition last_edge (f : ndarray) (dx_n : float) : float :=
  match rev f with
  | fn :: fm :: _ => (fn - fm) / dx_n
  | _ => 0
  end.

(** First-order one-sided difference at the first point:
    [(f[1] - f[0]) / dx_0]. *)
Definition first_edge (f : ndarray) (dx_0 : float) : float :=
  match f with
  | f0 :: f1 :: _ => (f1 - f0) / dx_0
  | _ => 0
  end.

(** [np.gradient(f, x)] for one-dimensional [f] and a coordinate array [x],
    [edge_order = 1].  The coordinate array must match [f] in length
    ([ValueError]); its differences are reduced to a scalar when they all
    equal the first one, and reading that first difference [diffx[0]]
    raises [IndexError] when there are fewer than two coordinates; an array
    with fewer than [edge_order + 1] elements is refused ([ValueError]). *)
Definition gradient (f x : ndarray) : py ndarray :=
  if negb (length x =? length f)%nat then Raise ValueError
  else
    let diffx := diff x in
    match diffx with
    | [] => Raise IndexError
    | d0 :: _ =>
        let uniform_spacing := forallb (fun d => d =? d0) diffx in
        if (length f <? 2)%nat then Raise ValueError
        else if uniform_spacing
        then Ret (first_edge f d0 :: interior_uniform f d0 ++ [last_edge f d0])
        else Ret (first_edge f d0 :: interior_nonuniform f diffx
                    ++ [last_edge f (last diffx d0)])
    end.

Definition zeros_like (a : ndarray) : ndarray := map (fun _ => 0) a.

(** [np.maximum] on two floats: NaN propagates. *)
Definition maximum (a b : float) : float :=
  if (b <=? a) || PrimFloat.is_nan a then a else b.

(** [np.max]: the reduction of [np.maximum]; empty arrays are refused. *)
Definition max (a : ndarray) : py float :=
  match a with
  | [] => Raise ValueError
  | x :: t => Ret (fold_left maximum t x)
  end.

(** The scan of [np.argmax] over a float array: [mp] is the running maximum,
    [best] its index, [i] the index of the head of [l].  A new entry wins
    when it is not [<= mp]; a NaN wins and ends the scan. *)
Fixpoint argmax_scan (mp : float) (best i : nat) (l : ndarray) : nat :=
  match l with
  | [] => best
  | x :: t =>
      if negb (x <=? mp)
      then if PrimFloat.is_nan x then i else argmax_scan x i (S i) t
      else argmax_scan mp best (S i) t
  end.

Definition argmax (a : ndarray) : py nat :=
  match a with
  | [] => Raise ValueError
  | x :: t => Ret (if PrimFloat.is_nan x then 0%nat else argmax_scan x 0 1 t)
  end.

(** The scan of [np.argmin]: a new entry wins when it is not [>= mp]. *)
Fixpoint argmin_scan (mp : float) (best i : nat) (l : ndarray) : nat :=
  match l with
  | [] => best
  | x :: t =>
      if negb (mp <=? x)
      then if PrimFloat.is_nan x then i else argmin_scan x i (S i) t
      else argmin_scan mp best (S i) t
  end.

Definition argmin (a : ndarray) : py nat :=
  match a with
  | [] => Raise ValueError
  | x :: t => Ret (if PrimFloat.is_nan x then 0%nat else argmin_scan x 0 1 t)
  end.

Definition any (mask : list bool) : bool := existsb (fun b => b) mask.

(** [np.where(cond, a, b)] with an array [a] and a scalar [b]. *)
Definition where_ (cond : list bool) (a : ndarray) (b : float) : ndarray :=
  map2 (fun (c : bool) v => if c then v else b) cond a.

(** [np.mean]: the sum over the count; the mean of an empty array is NaN.
    (numpy adds long arrays pairwise, which can change the last bits of the
    sum; nothing below depends on the order of the additions.) *)
Definition sum (a : ndarray) : float := fold_left PrimFloat.add a 0.
Definition mean (a : ndarray) : float := sum a / float_of_nat (length a).

End np.

(** ** Library functions taken as given

    Three results of the libraries are not recomputed bit for bit here: the
    interpolated percentile [np.percentile(a, q)], the slope angle
    [np.degrees(np.arctan(y))] and Python's [round(x, ndigits)].  The
    pipeline is stated over any implementation of them. *)

Class Numerics : Type := {
  np_percentile : ndarray -> float -> float;
  np_arctan : float -> float;
  np_degrees : float -> float;
  py_round : float -> Z -> float
}.

(** A Python [str] is embedded as the string of its UTF-8 bytes, so that
    equality of strings and the search for an ASCII word in a string are
    those of Python.  [str.strip] and [str.lower] follow Unicode (they know
    more blanks and letters than ASCII has) and are taken as given too: the
    handler is stated over any implementation of them. *)
Class Text : Type := {
  str_strip : string -> string;
  str_lower : string -> string
}.

(** ** The request and the response *)

(** A column of the uploaded CSV: its header and the float series that
    [pd.to_numeric(column, errors="coerce")] yields, where every missing or
    non-numeric cell is NaN. *)
Definition DataFrame := list (string * ndarray).

Record request : Type := {
  files_file : option DataFrame;  (* request.files.get("file"), read by pd.read_csv *)
  form_area : option float;       (* request.form.get("area"), parsed by float() *)
  form_length : option float      (* request.form.get("length"), parsed by float() *)
}.

Record point : Type := {
  pt_strain : float;
  pt_stress : float;
  pt_slope_angle : float
}.

Record metrics : Type := {
  max_stress_mpa : float;
  yield_strength_mpa : float;
  max_strain : float;
  max_load_n : float
}.

Record payload : Type := {
  js_displacement : ndarray;
  js_load : ndarray;
  js_stress : ndarray;
  js_strain : ndarray;
  js_youngs_modulus : ndarray;
  js_slope_angles : ndarray;
  js_yield_point : option point;
  js_yield_index : option Z;
  js_fracture_point : point;
  js_offset_line : list (float * float);
  js_metrics : metrics;
  js_columns_used : string * string
}.

Inductive error_message : Type :=
| NoFileUploaded                            (* "No file uploaded." *)
| ParametersNotPositive                     (* "Area and Gauge Length must be positive numbers." *)
| ColumnsNotDetected (found : list string)  (* "Could not auto-detect columns. Found: ..." *)
| ExceptionText (e : exn).                  (* str(e) of the exception caught at the end *)

Inductive response : Type :=
| JsonError (status : Z) (message : error_message)
| JsonOk (body : payload).

(** ** Column names *)

(** [str.strip] and [str.lower] restricted to ASCII text: they agree with
    Python on strings of ASCII characters, and serve as the implementation
    of [Text] on which the examples are run. *)
Definition is_space (c : ascii) : bool :=
  let n := nat_of_ascii c in
  ((9 <=? n) && (n <=? 13) || (28 <=? n) && (n <=? 32))%nat.

Definition lower_ascii (c : ascii) : ascii :=
  let n := nat_of_ascii c in
  if ((65 <=? n) && (n <=? 90))%nat then ascii_of_nat (n + 32) else c.

Fixpoint lstrip (s : string) : string :=
  match s with
  | String c t => if is_space c then lstrip t else s
  | EmptyString => EmptyString
  end.

Fixpoint rstrip (s : string) : string :=
  match s with
  | String c t =>
      match rstrip t with
      | EmptyString => if is_space c then EmptyString else String c EmptyString
      | t' => String c t'
      end
  | EmptyString => EmptyString
  end.

Definition strip (s : string) : string := rstrip (lstrip s).

Fixpoint lower (s : string) : string :=
  match s with
  | String c t => String (lower_ascii c) (lower t)
  | EmptyString => EmptyString
  end.

(** [sub in s] *)
Fixpoint contains (sub s : string) : bool :=
  prefix sub s ||
  match s with
  | String _ t => contains sub t
  | EmptyString => false
  end.

(** The detection loop over [df.columns]: the last matching column wins. *)
Definition detect_columns (columns : list string) : option string * option string :=
  fold_left
    (fun (found : option string * option string) (col : string) =>
       let disp_col :=
         if contains "disp" col || contains "extension" col || contains "delta" col
         then Some col else fst found in
       let load_col :=
         if contains "load" col || contains "force" col
         then Some col else snd found in
       (disp_col, load_col))
    columns (None, None).

(** [pd.to_numeric(df[col], errors="coerce")]: a label carried by several
    columns selects a frame, which [to_numeric] refuses. *)
Definition to_numeric_column (df : DataFrame) (col : string) : py ndarray :=
  match filter (fun c => String.eqb (fst c) col) df with
  | [c] => Ret (snd c)
  | _ => Raise TypeError
  end.

Definition dropna (a : ndarray) : ndarray :=
  filter (fun x => negb (PrimFloat.is_nan x)) a.

(** ** The analysis pipeline *)

Section Pipeline.
Context {lib : Numerics}.
Open Scope float_scope.

(** The variables of [analyze] once the pipeline has run. *)
Record locals : Type := {
  displacement : ndarray;
  load : ndarray;
  stress_mpa : ndarray;
  strain : ndarray;
  youngs_modulus_arr : ndarray;
  slope_angles : ndarray;
  tangent_modulus_arr : ndarray;
  max_stress_val : float;
  max_strain_val : float;
  elastic_mask : list bool;
  E : float;
  offset_stress : ndarray;
  yield_index : option Z;
  yield_point : option point;
  offset_line : list (float * float);
  peak_idx : Z;
  fracture_idx : Z;
  fracture_point : point;
  max_load : float
}.

(** Lines 72-73: [stress = load / area; stress_mpa = stress / 1e6]. *)
Definition to_stress_mpa (load : ndarray) (area : float) : ndarray :=
  map (fun s => s / 1e6) (map (fun l => l / area) load).

(** Line 77: [strain = (displacement / 1000) / gauge_length]. *)
Definition to_strain (displacement : ndarray) (gauge_length : float) : ndarray :=
  map (fun d => (d / 1000) / gauge_length) displacement.

(** Line 82: [np.where(strain != 0, stress_mpa / strain, 0.0)]. *)
Definition youngs_modulus (stress_mpa strain : ndarray) : ndarray :=
  np.where_ (map (fun e => negb (e =? 0)) strain)
            (map2 PrimFloat.div stress_mpa strain) 0.

(** Lines 89-92: the tangent modulus, with its [except ValueError]. *)
Definition tangent_modulus (stress_mpa strain : ndarray) : py ndarray :=
  try_except_ValueError (np.gradient stress_mpa strain)
                        (Ret (np.zeros_like stress_mpa)).

(** Line 101: [(stress_mpa > 0.05 * max_stress_val) & (strain < 0.5 * max_strain_val)]. *)
Definition elastic_region (stress_mpa strain : ndarray)
    (max_stress_val max_strain_val : float) : list bool :=
  map2 andb (map (fun s => 0.05 * max_stress_val <? s) stress_mpa)
            (map (fun e => e <? 0.5 * max_strain_val) strain).

(** Lines 105-107: the mean of the slopes of the region at or above their
    90th percentile. *)
Definition top_decile_mean (tangent_modulus_arr : ndarray) (elastic_mask : list bool) : float :=
  let valid_slopes := mask_select tangent_modulus_arr elastic_mask in
  let threshold := np_percentile valid_slopes 90 in
  np.mean (mask_select valid_slopes (map (fun v => threshold <=? v) valid_slopes)).

(** Line 110: the fallback,
    [np.max(tangent[:max(5, int(len(strain)*0.2))]) if len(strain) > 5 else 1.0]. *)
Definition fallback_modulus (tangent_modulus_arr strain : ndarray) : py float :=
  if (5 <? length strain)%nat
  then np.max (firstn (Z.to_nat (Z.max 5 (py_int (float_of_nat (length strain) * 0.2))))
                      tangent_modulus_arr)
  else Ret 1.0.

(** Lines 103-110. *)
Definition elastic_modulus (tangent_modulus_arr strain : ndarray) (elastic_mask : list bool)
    : py float :=
  if np.any elastic_mask
  then Ret (top_decile_mean tangent_modulus_arr elastic_mask)
  else fallback_modulus tangent_modulus_arr strain.

(** The test of line 118 at one index. *)
Definition crosses (strain_i stress_i offset_i : float) : bool :=
  (0.002 <? strain_i) && (stress_i <? offset_i).

(** Lines 116-120: the scan for the first crossing, from index [i]. *)
Fixpoint yield_scan (i : Z) (strain stress_mpa offset_stress : ndarray) : option Z :=
  match strain, stress_mpa, offset_stress with
  | e :: strain', s :: stress', o :: offset' =>
      if crosses e s o then Some (i - 1)%Z
      else yield_scan (i + 1)%Z strain' stress' offset'
  | _, _, _ => None
  end.

(** A point of the curve read at a Python index (lines 125-129, 166-170). *)
Definition point_at (strain stress_mpa slope_angles : ndarray) (i : Z) : py point :=
  e <- getitem strain i ;;
  s <- getitem stress_mpa i ;;
  a <- getitem slope_angles i ;;
  Ret {| pt_strain := e; pt_stress := s; pt_slope_angle := a |}.

(** Lines 146-164: the fracture index from the peak index. *)
Definition fracture_index (tangent_modulus_arr : ndarray) (E : float) (peak_idx : Z) : py Z :=
  let post_peak_tangent := skipn (Z.to_nat peak_idx) tangent_modulus_arr in
  if (1 <? length post_peak_tangent)%nat
  then
    min_slope_idx_local <- np.argmin post_peak_tangent ;;
    min_slope_val <- getitem post_peak_tangent (Z.of_nat min_slope_idx_local) ;;
    let min_slope_idx := (peak_idx + Z.of_nat min_slope_idx_local)%Z in
    if min_slope_val <? (-0.05) * E
    then Ret (Z.max peak_idx (min_slope_idx - 1))
    else Ret peak_idx
  else Ret peak_idx.

(** Lines 66-175 of [analyze], from the two cleaned columns. *)
Definition pipeline (area gauge_length : float) (displacement load : ndarray) : py locals :=
  let min_len := Nat.min (length displacement) (length load) in
  let displacement := firstn min_len displacement in
  let load := firstn min_len load in
  let stress_mpa := to_stress_mpa load area in
  let strain := to_strain displacement gauge_length in
  let youngs_modulus_arr := youngs_modulus stress_mpa strain in
  let slope_angles := map (fun y => np_degrees (np_arctan y)) youngs_modulus_arr in
  tangent_modulus_arr <- tangent_modulus stress_mpa strain ;;
  max_stress_val <- np.max stress_mpa ;;
  max_strain_val <- np.max strain ;;
  let elastic_mask := elastic_region stress_mpa strain max_stress_val max_strain_val in
  E <- elastic_modulus tangent_modulus_arr strain elastic_mask ;;
  let offset_stress := map (fun e => E * (e - 0.002)) strain in
  let yield_index := yield_scan 0 strain stress_mpa offset_stress in
  yield_point <-
    match yield_index with
    | None => Ret None
    | Some i => p <- point_at strain stress_mpa slope_angles i ;; Ret (Some p)
    end ;;
  let offset_line :=
    match yield_point with
    | Some p => [(0.002, 0); (pt_strain p, pt_stress p)]
    | None => []
    end in
  peak <- np.argmax stress_mpa ;;
  let peak_idx := Z.of_nat peak in
  fracture_idx <- fracture_index tangent_modulus_arr E peak_idx ;;
  fracture_point <- point_at strain stress_mpa slope_angles fracture_idx ;;
  max_load <- np.max load ;;
  Ret {| displacement := displacement;
         load := load;
         stress_mpa := stress_mpa;
         strain := strain;
         youngs_modulus_arr := youngs_modulus_arr;
         slope_angles := slope_angles;
         tangent_modulus_arr := tangent_modulus_arr;
         max_stress_val := max_stress_val;
         max_strain_val := max_strain_val;
         elastic_mask := elastic_mask;
         E := E;
         offset_stress := offset_stress;
         yield_index := yield_index;
         yield_point := yield_point;
         offset_line := offset_line;
         peak_idx := peak_idx;
         fracture_idx := fracture_idx;
         fracture_point := fracture_point;
         max_load := max_load |}.

(** Lines 176-199: the JSON body. *)
Definition result_body (st : locals) (disp_col load_col : string) : payload :=
  let yield_strength :=
    match yield_point st with Some p => pt_stress p | None => 0 end in
  {| js_displacement := displacement st;
     js_load := load st;
     js_stress := stress_mpa st;
     js_strain := strain st;
     js_youngs_modulus := youngs_modulus_arr st;
     js_slope_angles := slope_angles st;
     js_yield_point := yield_point st;
     js_yield_index := yield_index st;
     js_fracture_point := fracture_point st;
     js_offset_line := offset_line st;
     js_metrics :=
       {| max_stress_mpa := py_round (max_stress_val st) 2;
          yield_strength_mpa := py_round yield_strength 2;
          max_strain := py_round (max_strain_val st) 6;
          max_load_n := py_round (max_load st) 2 |};
     js_columns_used := (disp_col, load_col) |}.

(** Lines 62-199: what runs inside the [try] once both columns are known. *)
Definition analyze_columns (df : DataFrame) (area gauge_length : float)
    (disp_col load_col : string) : py payload :=
  displacement <- to_numeric_column df disp_col ;;
  load <- to_numeric_column df load_col ;;
  st <- pipeline area gauge_length (dropna displacement) (dropna load) ;;
  Ret (result_body st disp_col load_col).

(** Lines 29-30: the form fields with their defaults. *)
Definition request_area (req : request) : float :=
  match form_area req with Some a => a | None => 0.003 end.

Definition request_gauge_length (req : request) : float :=
  match form_length req with Some l => l | None => 1.0 end.

Context {txt : Text}.

(** Line 37: [pd.read_csv] on the text of the upload.  A text without any
    column makes it raise [EmptyDataError], a [ValueError] ("No columns to
    parse from file"); otherwise it returns the table.  (An upload is given
    here by the table its text holds, and the form fields by the floats
    [float()] returns: bytes that are not UTF-8, a text pandas cannot
    tokenize or a field [float()] refuses make lines 29-37 raise, which the
    handler answers with status 500; such requests are not values of
    [request].) *)
Definition pd_read_csv (file : DataFrame) : py DataFrame :=
  match file with
  | [] => Raise ValueError
  | _ :: _ => Ret file
  end.

(** Line 40: [df.columns = [c.strip().lower() for c in df.columns]]. *)
Definition normalise_columns (df : DataFrame) : DataFrame :=
  map (fun c => (str_lower (str_strip (fst c)), snd c)) df.

(** Lines 40-199: what runs inside the [try] once the table is read. *)
Definition analyze_table (table : DataFrame) (area gauge_length : float) : response :=
  let df := normalise_columns table in
  match detect_columns (map fst df) with
  | (Some disp_col, Some load_col) =>
      match analyze_columns df area gauge_length disp_col load_col with
      | Ret body => JsonOk body
      | Raise e => JsonError 500 (ExceptionText e)
      end
  | _ => JsonError 400 (ColumnsNotDetected (map fst df))
  end.

(** The handler [analyze] (lines 17-202). *)
Definition analyze (req : request) : response :=
  match files_file req with
  | None => JsonError 400 NoFileUploaded
  | Some file =>
      let area := request_area req in
      let gauge_length := request_gauge_length req in
      if (area <=? 0) || (gauge_length <=? 0)
      then JsonError 400 ParametersNotPositive
      else
        match pd_read_csv file with
        | Ret table => analyze_table table area gauge_length
        | Raise e => JsonError 500 (ExceptionText e)
        end
  end.

(** ** The specification's reading of the modulus estimator

    The elastic-candidate region as a set of indices, and the scalar modulus
    as the mean of the region's tangent-modulus values at or above their
    90th percentile (spec 4.2, steps 2 and 3). *)

Definition elastic_candidates (stress strain : ndarray) (maxStress maxStrain : float)
    : list nat :=
  filter (fun i => (0.05 * maxStress <? nth i stress 0) && (nth i strain 0 <? 0.5 * maxStrain))
         (seq 0 (length stress)).

Definition spec_scalar_modulus (tangent : ndarray) (region : list nat) : float :=
  let values := map (fun i => nth i tangent 0) region in
  let threshold := np_percentile values 90 in
  np.mean (filter (fun v => threshold <=? v) values).

End Pipeline.

(** ** An implementation of the library functions, to run the pipeline

    The percentile is the linearly interpolated one of a sorted copy (on
    arrays without NaN it is numpy's up to the rounding of the
    interpolation; numpy returns NaN when the array holds one); the angle
    and the rounding are left as the identity, since no property below reads
    a slope angle or a rounded metric; the strings are stripped and lowered
    as ASCII text.  The examples are run on it; the theorems hold for every
    implementation. *)

Module Sample.
Open Scope float_scope.

Fixpoint insert_sorted (x : float) (l : ndarray) : ndarray :=
  match l with
  | [] => [x]
  | y :: t => if x <=? y then x :: l else y :: insert_sorted x t
  end.

Definition sort (l : ndarray) : ndarray := fold_right insert_sorted [] l.

Definition percentile_linear (a : ndarray) (q : float) : float :=
  let sorted := sort a in
  let n := length sorted in
  let h := float_of_nat (n - 1) * (q / 100) in
  let lo := Z.to_nat (py_int h) in
  let hi := Nat.min (S lo) (n - 1) in
  let vlo := nth lo sorted 0 in
  let vhi := nth hi sorted 0 in
  vlo + (h - float_of_nat lo) * (vhi - vlo).

#[export] Instance numerics : Numerics := {|
  np_percentile := percentile_linear;
  np_arctan := fun x => x;
  np_degrees := fun x => x;
  py_round := fun x _ => x
|}.

#[export] Instance text : Text := {|
  str_strip := strip;
  str_lower := lower
|}.

End Sample.

(** ** Auxiliary notions for the properties *)

(** The comparison of two finite binary64 values of one sign, by exponent
    and then by mantissa, as [SFcompare] performs it. *)
Definition lexcmp (e1 : Z) (m1 : positive) (e2 : Z) (m2 : positive) : comparison :=
  match Z.compare e1 e2 with
  | Lt => Lt
  | Gt => Gt
  | Eq => Pos.compare_cont Eq m1 m2
  end.

(** An array without NaN. *)
Definition no_nan (a : ndarray) : Prop :=
  Forall (fun x => PrimFloat.is_nan x = false) a.

(** The scaling [f] keeps the comparisons of the samples of [a]. *)
Definition order_preserved (f : float -> float) (a : ndarray) : Prop :=
  Forall (fun x =>
            PrimFloat.is_nan (f x) = PrimFloat.is_nan x /\
            Forall (fun y => (f x <=? f y)%float = (x <=? y)%float) a) a.

(** ** Inputs of the concrete runs *)

Module Runs.
Open Scope float_scope.
Open Scope string_scope.

(** Scenario 1 of the specification. *)
Definition scenario1_displacement : ndarray := [0; 1; 2; 4; 6; 7].
Definition scenario1_load : ndarray := [0; 100; 200; 300; 250; 260].
Definition scenario1_area : float := 0.0003.
Definition scenario1_gauge_length : float := 0.05.

(** A CSV with a single numeric row, and its request. *)
Definition one_row_file : DataFrame :=
  [("Displacement (mm)", [1.5]); ("Load (N)", [100])].


(** A request whose area is zero (scenario 3). *)
Definition zero_area_request : request :=
  {| files_file := Some one_row_file; form_area := Some 0; form_length := None |}.

End Runs.

(** ** Notions for the properties of the handler *)

(** The tests of lines 48 and 50 on a column name. *)
Definition names_displacement (col : string) : bool :=
  contains "disp" col || contains "extension" col || contains "delta" col.

Definition names_load (col : string) : bool :=
  contains "load" col || contains "force" col.

(** A float that is one of the two zeros. *)
Definition is_zero_value (x : float) : bool := (x =? 0)%float.

Module Requests.
Open Scope float_scope.
Open Scope string_scope.

(** Scenario 1 of the specification as an upload, with a column the
    detection ignores. *)
Definition scenario1_file : DataFrame :=
  [(" Time (s)", [0; 1; 2; 3; 4; 5]);
   ("Extension (mm) ", [0; 1; 2; 4; 6; 7]);
   ("Force (N)", [0; 100; 200; 300; 250; 260])].

Definition scenario1_request : request :=
  {| files_file := Some scenario1_file;
     form_area := Some 0.0003;
     form_length := Some 0.05 |}.

(** An upload without a force column. *)
Definition no_force_file : DataFrame :=
  [("Time", [0; 1]); ("Displacement", [0; 1])].

Definition no_force_request : request :=
  {| files_file := Some no_force_file; form_area := None; form_length := None |}.



(** An upload whose area field parsed to NaN. *)
Definition nan_area_request : request :=
  {| files_file := Some scenario1_file; form_area := Some nan; form_length := None |}.

End Requests.

(** * Properties *)

(** ** Arrays *)

Lemma map2_length {A B C : Type} (f : A -> B -> C) (l : list A) (r : list B) :
  length (map2 f l r) = Nat.min (length l) (length r).
Proof.
  revert r; induction l as [|a l IH]; intros [|b r]; simpl; auto.
Qed.

Lemma map2_nth_error {A B C : Type} (f : A -> B -> C) (l : list A) (r : list B)
    (i : nat) (a : A) (b : B) :
  nth_error l i = Some a -> nth_error r i = Some b ->
  nth_error (map2 f l r) i = Some (f a b).
Proof.
  revert r i; induction l as [|a' l IH]; intros [|b' r] [|i]; simpl;
    try discriminate.
  - intros [= ->] [= ->]; reflexivity.
  - apply IH.
Qed.

Lemma mask_select_length_le {A : Type} (arr : list A) (mask : list bool) :
  (length (mask_select arr mask) <= length arr)%nat.
Proof.
  revert mask; induction arr as [|a arr IH]; intros [|b mask]; simpl; try lia.
  specialize (IH mask). destruct b; simpl; lia.
Qed.

(** Selecting by a mask is reading the array at the indices the mask holds at. *)
Lemma mask_select_indices (arr : ndarray) (mask : list bool) (k : nat) :
  length arr = length mask ->
  mask_select arr mask =
  map (fun i => nth (i - k) arr 0%float)
      (filter (fun i => nth (i - k) mask false) (seq k (length arr))).
Proof.
  revert mask k; induction arr as [|a arr IH]; intros [|b mask] k Hlen;
    try discriminate; [reflexivity|].
  injection Hlen as Hlen.
  assert (Hf : filter (fun i => nth (i - k) (b :: mask) false) (seq (S k) (length arr)) =
               filter (fun i => nth (i - S k) mask false) (seq (S k) (length arr))).
  { apply filter_ext_in. intros i Hi. apply in_seq in Hi.
    replace (i - k)%nat with (S (i - S k)) by lia. reflexivity. }
  assert (Hm : forall l : list nat,
             (forall i, In i l -> (S k <= i)%nat) ->
             map (fun i => nth (i - k) (a :: arr) 0%float) l =
             map (fun i => nth (i - S k) arr 0%float) l).
  { intros l Hl. apply map_ext_in. intros i Hi. apply Hl in Hi.
    replace (i - k)%nat with (S (i - S k)) by lia. reflexivity. }
  cbn [mask_select length seq filter].
  rewrite Hf, (IH mask (S k) Hlen), Nat.sub_diag.
  change (nth 0 (b :: mask) false) with b.
  destruct b; cbn [map]; rewrite ?Nat.sub_diag;
    change (nth 0 (a :: arr) 0%float) with a; rewrite Hm; auto;
    intros i Hi; apply filter_In in Hi; destruct Hi as [Hi _];
    apply in_seq in Hi; lia.
Qed.

Lemma mask_select_as_filter (vals : ndarray) (p : float -> bool) :
  mask_select vals (map p vals) = filter p vals.
Proof.
  induction vals as [|v vals IH]; simpl; auto.
  destruct (p v); rewrite IH; reflexivity.
Qed.

Lemma getitem_in_range (arr : ndarray) (i : nat) :
  (i < length arr)%nat -> getitem arr (Z.of_nat i) = Ret (nth i arr 0%float).
Proof.
  intros Hi. unfold getitem.
  assert (Hneg : (Z.of_nat i <? 0)%Z = false) by (apply Z.ltb_ge; lia).
  rewrite Hneg.
  assert (Hin : ((0 <=? Z.of_nat i) && (Z.of_nat i <? Z.of_nat (length arr)))%Z = true).
  { apply andb_true_iff; split; [apply Z.leb_le | apply Z.ltb_lt]; lia. }
  rewrite Hin, Nat2Z.id.
  destruct (nth_error arr i) as [x|] eqn:Hx.
  - rewrite (nth_error_nth _ _ _ Hx). reflexivity.
  - apply nth_error_None in Hx. lia.
Qed.

(** An index the array has, counted from either end, never raises. *)
Lemma getitem_total (arr : ndarray) (i : Z) :
  (- Z.of_nat (length arr) <= i < Z.of_nat (length arr))%Z ->
  exists x, getitem arr i = Ret x.
Proof.
  intros Hi. unfold getitem.
  set (j := if (i <? 0)%Z then (Z.of_nat (length arr) + i)%Z else i).
  assert (Hj : (0 <= j < Z.of_nat (length arr))%Z).
  { subst j. destruct (Z.ltb_spec i 0); lia. }
  assert (Hin : ((0 <=? j) && (j <? Z.of_nat (length arr)))%Z = true).
  { apply andb_true_iff; split; [apply Z.leb_le | apply Z.ltb_lt]; lia. }
  rewrite Hin.
  destruct (nth_error arr (Z.to_nat j)) as [x|] eqn:Hx; [eauto|].
  apply nth_error_None in Hx. lia.
Qed.

(** Index [-1] reads the last entry. *)
Lemma getitem_minus_one (arr : ndarray) (x : float) :
  getitem (arr ++ [x]) (-1) = Ret x.
Proof.
  unfold getitem.
  rewrite length_app. simpl length.
  replace ((-1 <? 0)%Z) with true by reflexivity.
  assert (Hin : ((0 <=? Z.of_nat (length arr + 1) + -1) &&
                 (Z.of_nat (length arr + 1) + -1 <? Z.of_nat (length arr + 1)))%Z = true).
  { apply andb_true_iff; split; [apply Z.leb_le | apply Z.ltb_lt]; lia. }
  rewrite Hin.
  replace (Z.to_nat (Z.of_nat (length arr + 1) + -1)) with (length arr) by lia.
  rewrite nth_error_app2 by lia. rewrite Nat.sub_diag. reflexivity.
Qed.

(** ** numpy *)

Lemma diff_length (x : ndarray) : length (np.diff x) = (length x - 1)%nat.
Proof.
  destruct x as [|x0 t]; simpl; auto.
  rewrite map2_length. simpl. lia.
Qed.

Lemma interior_uniform_length (f : ndarray) (dx : float) :
  length (np.interior_uniform f dx) = (length f - 2)%nat.
Proof.
  unfold np.interior_uniform. rewrite map2_length, length_skipn. lia.
Qed.

Lemma interior_nonuniform_length (f dx : ndarray) :
  length dx = (length f - 1)%nat ->
  length (np.interior_nonuniform f dx) = (length f - 2)%nat.
Proof.
  revert dx; induction f as [|f0 f IH]; intros dx Hdx; [reflexivity|].
  destruct f as [|f1 [|f2 f]]; [reflexivity|reflexivity|].
  destruct dx as [|dx1 [|dx2 dx]]; simpl in Hdx; try discriminate.
  change (length (np.interior_nonuniform (f0 :: f1 :: f2 :: f) (dx1 :: dx2 :: dx)))
    with (S (length (np.interior_nonuniform (f1 :: f2 :: f) (dx2 :: dx)))).
  rewrite IH; simpl in *; lia.
Qed.

(** What [np.gradient] does on arrays of one length: it fails on fewer than
    two samples with the [IndexError] of [diffx[0]], and otherwise returns
    one slope per sample. *)
Lemma gradient_cases (f x : ndarray) :
  length x = length f ->
  ((length f < 2)%nat /\ np.gradient f x = Raise IndexError) \/
  ((2 <= length f)%nat /\ exists g, np.gradient f x = Ret g /\ length g = length f).
Proof.
  intros Hlen. unfold np.gradient.
  rewrite Hlen, Nat.eqb_refl. cbn [negb].
  pose proof (diff_length x) as Hd.
  destruct (np.diff x) as [|d0 ds] eqn:Hdiff.
  - left. simpl in Hd. split; [lia | reflexivity].
  - right. simpl in Hd.
    assert (H2 : (2 <= length f)%nat) by lia.
    split; [exact H2|].
    assert (Hlt : (length f <? 2)%nat = false) by (apply Nat.ltb_ge; exact H2).
    rewrite Hlt.
    destruct (forallb _ (d0 :: ds)); eexists; (split; [reflexivity|]);
      cbn [length]; rewrite length_app; cbn [length].
    + rewrite interior_uniform_length. lia.
    + rewrite interior_nonuniform_length; simpl; lia.
Qed.

(** [np.gradient] never raises [ValueError] on arrays of one length. *)
Lemma gradient_no_ValueError (f x : ndarray) :
  length x = length f -> np.gradient f x <> Raise ValueError.
Proof.
  intros Hlen.
  destruct (gradient_cases f x Hlen) as [[_ H]|[_ [g [H _]]]]; rewrite H; discriminate.
Qed.

Lemma max_nonempty (a : ndarray) :
  a <> [] -> exists m, np.max a = Ret m.
Proof.
  destruct a as [|x t]; [congruence|]. intros _. simpl. eauto.
Qed.

Lemma argmax_scan_bound (l : ndarray) (mp : float) (best i : nat) :
  (best < i)%nat -> (np.argmax_scan mp best i l < i + length l)%nat.
Proof.
  revert mp best i; induction l as [|x t IH]; intros mp best i Hb; simpl; [lia|].
  destruct (negb (x <=? mp)%float).
  - destruct (PrimFloat.is_nan x); [lia|].
    specialize (IH x i (S i)). lia.
  - specialize (IH mp best (S i)). lia.
Qed.

Lemma argmax_bound (a : ndarray) (p : nat) :
  np.argmax a = Ret p -> (p < length a)%nat.
Proof.
  destruct a as [|x t]; simpl; [discriminate|].
  intros [= <-]. destruct (PrimFloat.is_nan x); [lia|].
  pose proof (argmax_scan_bound t x 0 1). lia.
Qed.

Lemma argmin_scan_bound (l : ndarray) (mp : float) (best i : nat) :
  (best < i)%nat -> (np.argmin_scan mp best i l < i + length l)%nat.
Proof.
  revert mp best i; induction l as [|x t IH]; intros mp best i Hb; simpl; [lia|].
  destruct (negb (mp <=? x)%float).
  - destruct (PrimFloat.is_nan x); [lia|].
    specialize (IH x i (S i)). lia.
  - specialize (IH mp best (S i)). lia.
Qed.

Lemma argmin_bound (a : ndarray) (p : nat) :
  np.argmin a = Ret p -> (p < length a)%nat.
Proof.
  destruct a as [|x t]; simpl; [discriminate|].
  intros [= <-]. destruct (PrimFloat.is_nan x); [lia|].
  pose proof (argmin_scan_bound t x 0 1). lia.
Qed.

Lemma any_false_iff (mask : list bool) :
  np.any mask = false <-> forall b, In b mask -> b = false.
Proof.
  unfold np.any. induction mask as [|b mask IH]; simpl.
  - split; [intros _ b [] | reflexivity].
  - rewrite orb_false_iff, IH. split.
    + intros [-> H] b' [<-|Hin]; auto.
    + intros H. split; [apply H; auto | intros b' Hb'; apply H; auto].
Qed.

(** ** The pipeline, step by step *)

Section PipelineFacts.
Context {lib : Numerics}.
Open Scope float_scope.

Lemma to_stress_mpa_length (load : ndarray) (area : float) :
  length (to_stress_mpa load area) = length load.
Proof. unfold to_stress_mpa. now rewrite !length_map. Qed.

Lemma to_strain_length (displacement : ndarray) (gauge_length : float) :
  length (to_strain displacement gauge_length) = length displacement.
Proof. unfold to_strain. now rewrite length_map. Qed.

Lemma youngs_modulus_length (stress strain : ndarray) :
  length stress = length strain ->
  length (youngs_modulus stress strain) = length strain.
Proof.
  intros H. unfold youngs_modulus, np.where_.
  rewrite !map2_length, length_map, H. lia.
Qed.

Lemma aligned_lengths (displacement load : ndarray) :
  let min_len := Nat.min (length displacement) (length load) in
  length (firstn min_len displacement) = min_len /\
  length (firstn min_len load) = min_len.
Proof. cbv zeta. rewrite !length_firstn. lia. Qed.

(** What a completed run of the pipeline computed, local by local. *)
Record pipeline_run (area gauge_length : float) (displacement0 load0 : ndarray)
    (st : locals) : Prop := {
  run_displacement :
    displacement st = firstn (Nat.min (length displacement0) (length load0)) displacement0;
  run_load :
    load st = firstn (Nat.min (length displacement0) (length load0)) load0;
  run_stress : stress_mpa st = to_stress_mpa (load st) area;
  run_strain : strain st = to_strain (displacement st) gauge_length;
  run_youngs : youngs_modulus_arr st = youngs_modulus (stress_mpa st) (strain st);
  run_angles :
    slope_angles st = map (fun y => np_degrees (np_arctan y)) (youngs_modulus_arr st);
  run_tangent : tangent_modulus (stress_mpa st) (strain st) = Ret (tangent_modulus_arr st);
  run_max_stress : np.max (stress_mpa st) = Ret (max_stress_val st);
  run_max_strain : np.max (strain st) = Ret (max_strain_val st);
  run_mask :
    elastic_mask st =
    elastic_region (stress_mpa st) (strain st) (max_stress_val st) (max_strain_val st);
  run_E : elastic_modulus (tangent_modulus_arr st) (strain st) (elastic_mask st) = Ret (E st);
  run_offset : offset_stress st = map (fun e => E st * (e - 0.002)) (strain st);
  run_yield_index :
    yield_index st = yield_scan 0 (strain st) (stress_mpa st) (offset_stress st);
  run_yield_point :
    match yield_index st with
    | None => yield_point st = None
    | Some i =>
        exists p, point_at (strain st) (stress_mpa st) (slope_angles st) i = Ret p /\
                  yield_point st = Some p
    end;
  run_peak :
    exists p, np.argmax (stress_mpa st) = Ret p /\ peak_idx st = Z.of_nat p;
  run_fracture :
    fracture_index (tangent_modulus_arr st) (E st) (peak_idx st) = Ret (fracture_idx st);
  run_fracture_point :
    point_at (strain st) (stress_mpa st) (slope_angles st) (fracture_idx st)
    = Ret (fracture_point st);
  run_max_load : np.max (load st) = Ret (max_load st)
}.

Ltac step_bind H :=
  match type of H with
  | bind ?m _ = Ret _ =>
      let v := fresh "v" in
      let Hv := fresh "Hv" in
      destruct m as [v|] eqn:Hv; cbn [bind] in H; [|discriminate H]
  end.

Lemma pipeline_inv (area gauge_length : float) (displacement0 load0 : ndarray)
    (st : locals) :
  pipeline area gauge_length displacement0 load0 = Ret st ->
  pipeline_run area gauge_length displacement0 load0 st.
Proof.
  intros H. unfold pipeline in H. cbv zeta in H.
  do 4 step_bind H.
  destruct (yield_scan 0 _ _ _) as [yi|] eqn:Hyi; cbv beta iota in H.
  - destruct (point_at _ _ _ yi) as [p|] eqn:Hp; cbn [bind] in H; [|discriminate H].
    do 4 step_bind H.
    injection H as <-.
    constructor; cbn [displacement load stress_mpa strain youngs_modulus_arr
      slope_angles tangent_modulus_arr max_stress_val max_strain_val elastic_mask
      E offset_stress yield_index yield_point offset_line peak_idx fracture_idx
      fracture_point max_load]; eauto.
  - cbn [bind] in H. do 4 step_bind H.
    injection H as <-.
    constructor; cbn [displacement load stress_mpa strain youngs_modulus_arr
      slope_angles tangent_modulus_arr max_stress_val max_strain_val elastic_mask
      E offset_stress yield_index yield_point offset_line peak_idx fracture_idx
      fracture_point max_load]; eauto.
Qed.

End PipelineFacts.

Section StageFacts.
Context {lib : Numerics}.
Open Scope float_scope.

Lemma tangent_modulus_cases (stress strain : ndarray) :
  length strain = length stress ->
  ((length stress < 2)%nat /\ tangent_modulus stress strain = Raise IndexError) \/
  ((2 <= length stress)%nat /\
   exists g, tangent_modulus stress strain = Ret g /\ np.gradient stress strain = Ret g /\
             length g = length stress).
Proof.
  intros Hlen. unfold tangent_modulus.
  destruct (gradient_cases stress strain Hlen) as [[Hn H]|[Hn [g [H Hg]]]]; rewrite H.
  - left. split; [exact Hn | reflexivity].
  - right. split; [exact Hn|]. exists g. auto.
Qed.

(** Fewer than two aligned samples: the run ends in the [IndexError] that
    [np.gradient] raises, which [except ValueError] does not catch. *)
Lemma pipeline_short (area gauge_length : float) (displacement load : ndarray) :
  (Nat.min (length displacement) (length load) < 2)%nat ->
  pipeline area gauge_length displacement load = Raise IndexError.
Proof.
  intros Hn. unfold pipeline. cbv zeta.
  destruct (aligned_lengths displacement load) as [Hd Hl]. cbv zeta in Hd, Hl.
  set (n := Nat.min (length displacement) (length load)) in *.
  destruct (tangent_modulus_cases (to_stress_mpa (firstn n load) area)
              (to_strain (firstn n displacement) gauge_length)) as [[_ H]|[H _]].
  - now rewrite to_strain_length, to_stress_mpa_length, Hd, Hl.
  - rewrite H. reflexivity.
  - rewrite to_stress_mpa_length, Hl in H. lia.
Qed.

(** The arrays of a completed run all have the aligned length, at least 2. *)
Lemma run_lengths (area gauge_length : float) (displacement0 load0 : ndarray) (st : locals) :
  pipeline_run area gauge_length displacement0 load0 st ->
  let n := Nat.min (length displacement0) (length load0) in
  (2 <= n)%nat /\
  length (displacement st) = n /\ length (load st) = n /\
  length (stress_mpa st) = n /\ length (strain st) = n /\
  length (youngs_modulus_arr st) = n /\ length (slope_angles st) = n /\
  length (tangent_modulus_arr st) = n /\ length (offset_stress st) = n /\
  np.gradient (stress_mpa st) (strain st) = Ret (tangent_modulus_arr st).
Proof.
  intros R n.
  destruct (aligned_lengths displacement0 load0) as [Hd Hl]. cbv zeta in Hd, Hl.
  fold n in Hd, Hl.
  assert (Hdisp : length (displacement st) = n) by (rewrite (run_displacement _ _ _ _ _ R); exact Hd).
  assert (Hload : length (load st) = n) by (rewrite (run_load _ _ _ _ _ R); exact Hl).
  assert (Hstress : length (stress_mpa st) = n)
    by (rewrite (run_stress _ _ _ _ _ R), to_stress_mpa_length; exact Hload).
  assert (Hstrain : length (strain st) = n)
    by (rewrite (run_strain _ _ _ _ _ R), to_strain_length; exact Hdisp).
  assert (Hym : length (youngs_modulus_arr st) = n).
  { rewrite (run_youngs _ _ _ _ _ R), youngs_modulus_length; congruence. }
  assert (Hang : length (slope_angles st) = n)
    by (rewrite (run_angles _ _ _ _ _ R), length_map; exact Hym).
  assert (Hoff : length (offset_stress st) = n)
    by (rewrite (run_offset _ _ _ _ _ R), length_map; exact Hstrain).
  pose proof (run_tangent _ _ _ _ _ R) as Ht.
  destruct (tangent_modulus_cases (stress_mpa st) (strain st)) as [[_ H]|[Hn [g [H [Hg Hlen]]]]];
    [congruence | congruence |].
  rewrite H in Ht. injection Ht as <-.
  repeat split; auto; congruence.
Qed.

(** *** The yield scan *)

(** The scan returns [k - 1] for the first index [k] at which the crossing
    test holds, and nothing when it holds nowhere. *)
Lemma yield_scan_some (strain stress offset : ndarray) (i yi : Z) :
  length stress = length strain -> length offset = length strain ->
  yield_scan i strain stress offset = Some yi ->
  exists k : nat,
    yi = (i + Z.of_nat k - 1)%Z /\ (k < length strain)%nat /\
    crosses (nth k strain 0) (nth k stress 0) (nth k offset 0) = true /\
    forall j, (j < k)%nat ->
      crosses (nth j strain 0) (nth j stress 0) (nth j offset 0) = false.
Proof.
  revert stress offset i.
  induction strain as [|e strain IH]; intros [|s stress] [|o offset] i Hs Ho H;
    simpl in *; try discriminate.
  destruct (crosses e s o) eqn:Hc.
  - injection H as <-. exists 0%nat. repeat split; auto; try lia.
  - injection Hs as Hs. injection Ho as Ho.
    destruct (IH stress offset (i + 1)%Z Hs Ho H) as [k [Hy [Hk [Hck Hbefore]]]].
    exists (S k). repeat split; auto; try lia.
    intros [|j] Hj; [exact Hc | apply Hbefore; lia].
Qed.

Lemma yield_scan_none (strain stress offset : ndarray) (i : Z) :
  length stress = length strain -> length offset = length strain ->
  yield_scan i strain stress offset = None ->
  forall j, (j < length strain)%nat ->
    crosses (nth j strain 0) (nth j stress 0) (nth j offset 0) = false.
Proof.
  revert stress offset i.
  induction strain as [|e strain IH]; intros [|s stress] [|o offset] i Hs Ho H j Hj;
    simpl in *; try discriminate; try lia.
  destruct (crosses e s o) eqn:Hc; [discriminate|].
  injection Hs as Hs. injection Ho as Ho.
  destruct j as [|j]; [exact Hc|].
  apply (IH stress offset (i + 1)%Z Hs Ho H). lia.
Qed.

(** A crossing at the very first sample makes the scan return [-1]. *)
Lemma yield_scan_first (e s o : float) (strain stress offset : ndarray) :
  crosses e s o = true ->
  yield_scan 0 (e :: strain) (s :: stress) (o :: offset) = Some (-1)%Z.
Proof. intros H. simpl. rewrite H. reflexivity. Qed.

(** *** The fracture index *)

Lemma fracture_index_bounds (tangent : ndarray) (E : float) (peak : nat) (f : Z) :
  (peak < length tangent)%nat ->
  fracture_index tangent E (Z.of_nat peak) = Ret f ->
  (Z.of_nat peak <= f <= Z.of_nat (length tangent) - 1)%Z.
Proof.
  intros Hp. unfold fracture_index. rewrite Nat2Z.id.
  pose proof (length_skipn peak tangent) as Hlen.
  destruct (1 <? length (skipn peak tangent))%nat; [|intros [= <-]; lia].
  destruct (np.argmin (skipn peak tangent)) as [loc|] eqn:Hloc; cbn [bind]; [|discriminate].
  apply argmin_bound in Hloc.
  destruct (getitem _ _) as [v|]; cbn [bind]; [|discriminate].
  destruct (v <? -0.05 * E); intros [= <-]; lia.
Qed.

Lemma fracture_index_total (tangent : ndarray) (E : float) (peak : nat) :
  (peak < length tangent)%nat ->
  exists f, fracture_index tangent E (Z.of_nat peak) = Ret f.
Proof.
  intros Hp. unfold fracture_index. rewrite Nat2Z.id.
  pose proof (length_skipn peak tangent) as Hlen.
  destruct (1 <? length (skipn peak tangent))%nat eqn:Hgt; [|eauto].
  apply Nat.ltb_lt in Hgt.
  destruct (skipn peak tangent) as [|x t] eqn:Hpost; [simpl in Hgt; lia|].
  cbn [np.argmin bind].
  set (loc := if PrimFloat.is_nan x then 0%nat else np.argmin_scan x 0 1 t).
  assert (Hloc : (loc < length (x :: t))%nat).
  { apply argmin_bound. reflexivity. }
  rewrite (getitem_in_range _ _ Hloc). cbn [bind].
  destruct (_ <? _); eauto.
Qed.

End StageFacts.

Section Totality.
Context {lib : Numerics}.
Open Scope float_scope.

(** The fallback of line 110 returns a value for every tangent array that
    has one slope per sample: it never raises. *)
Lemma fallback_modulus_total (tangent strain : ndarray) :
  length tangent = length strain ->
  exists E, fallback_modulus tangent strain = Ret E.
Proof.
  intros Hlen. unfold fallback_modulus.
  destruct (5 <? length strain)%nat eqn:Hn; [|eauto].
  apply Nat.ltb_lt in Hn.
  apply max_nonempty.
  destruct tangent as [|t0 tangent]; [simpl in Hlen; lia|].
  set (k := Z.to_nat (Z.max 5 (py_int (float_of_nat (length strain) * 0.2)))).
  assert (Hk : (5 <= k)%nat) by (subst k; lia).
  destruct k as [|k]; [lia|]. simpl. discriminate.
Qed.

Lemma elastic_modulus_total (tangent strain : ndarray) (mask : list bool) :
  length tangent = length strain ->
  exists E, elastic_modulus tangent strain mask = Ret E.
Proof.
  intros Hlen. unfold elastic_modulus.
  destruct (np.any mask); [eauto|].
  apply fallback_modulus_total; exact Hlen.
Qed.

Lemma yield_scan_range (strain stress offset : ndarray) (yi : Z) :
  length stress = length strain -> length offset = length strain ->
  yield_scan 0 strain stress offset = Some yi ->
  (-1 <= yi < Z.of_nat (length strain) - 1)%Z.
Proof.
  intros Hs Ho H.
  destruct (yield_scan_some _ _ _ _ _ Hs Ho H) as [k [-> [Hk _]]]. lia.
Qed.

Lemma point_at_total (strain stress angles : ndarray) (i : Z) :
  length stress = length strain -> length angles = length strain ->
  (- Z.of_nat (length strain) <= i < Z.of_nat (length strain))%Z ->
  exists p, point_at strain stress angles i = Ret p.
Proof.
  intros Hs Ha Hi. unfold point_at.
  destruct (getitem_total strain i Hi) as [e ->].
  destruct (getitem_total stress i) as [s ->]; [rewrite Hs; exact Hi|].
  destruct (getitem_total angles i) as [a ->]; [rewrite Ha; exact Hi|].
  cbn [bind]. eauto.
Qed.

(** With two aligned samples or more the pipeline runs to its end. *)
Lemma pipeline_total (area gauge_length : float) (displacement load : ndarray) :
  (2 <= Nat.min (length displacement) (length load))%nat ->
  exists st, pipeline area gauge_length displacement load = Ret st.
Proof.
  intros Hn. unfold pipeline. cbv zeta.
  destruct (aligned_lengths displacement load) as [Hd Hl]. cbv zeta in Hd, Hl.
  set (n := Nat.min (length displacement) (length load)) in *.
  set (load' := firstn n load) in *.
  set (disp' := firstn n displacement) in *.
  set (stress := to_stress_mpa load' area).
  set (strain := to_strain disp' gauge_length).
  assert (Hstress : length stress = n) by (subst stress; now rewrite to_stress_mpa_length).
  assert (Hstrain : length strain = n) by (subst strain; now rewrite to_strain_length).
  destruct (tangent_modulus_cases stress strain) as [[H _]|[_ [g [Hg [_ Hglen]]]]];
    [congruence | lia |].
  rewrite Hg. cbn [bind].
  destruct (max_nonempty stress) as [ms ->]; [intros E0; rewrite E0 in Hstress; simpl in Hstress; lia|].
  destruct (max_nonempty strain) as [me ->]; [intros E0; rewrite E0 in Hstrain; simpl in Hstrain; lia|].
  cbn [bind].
  destruct (elastic_modulus_total g strain (elastic_region stress strain ms me)) as [E0 ->];
    [congruence|].
  cbn [bind].
  set (angles := map (fun y => np_degrees (np_arctan y)) (youngs_modulus stress strain)).
  assert (Hang : length angles = length strain).
  { subst angles. rewrite length_map, youngs_modulus_length; congruence. }
  assert (Hss : length stress = length strain) by congruence.
  set (offset := map (fun e => E0 * (e - 0.002)) strain).
  assert (Hoff : length offset = length strain) by (subst offset; now rewrite length_map).
  assert (Hyp : exists yp,
    match yield_scan 0 strain stress offset with
    | Some i => p <- point_at strain stress angles i ;; Ret (Some p)
    | None => Ret None
    end = Ret yp).
  { destruct (yield_scan 0 strain stress offset) as [yi|] eqn:Hyi; [|eauto].
    pose proof (yield_scan_range _ _ _ _ Hss Hoff Hyi) as Hr.
    destruct (point_at_total strain stress angles yi Hss Hang) as [p ->]; [lia|].
    cbn [bind]. eauto. }
  destruct Hyp as [yp ->]. cbn [bind].
  destruct (np.argmax stress) as [p|] eqn:Hp;
    [|destruct stress; [simpl in Hstress; lia | discriminate Hp]].
  cbn [bind]. apply argmax_bound in Hp.
  destruct (fracture_index_total g E0 p) as [f Hf]; [lia|].
  pose proof (fracture_index_bounds g E0 p f ltac:(lia) Hf) as Hfb.
  rewrite Hf. cbn [bind].
  destruct (point_at_total strain stress angles f Hss Hang) as [fp ->]; [lia|].
  cbn [bind].
  destruct (max_nonempty load') as [ml ->];
    [intros E1; rewrite E1 in Hl; simpl in Hl; lia|].
  cbn [bind]. eauto.
Qed.

End Totality.

(** ** The order of binary64 values

    [<=?] on floats is the comparison [SFleb] of their specification
    ([leb_spec]); away from NaN it is a total preorder. *)


Lemma lexcmp_spec (e1 : Z) (m1 : positive) (e2 : Z) (m2 : positive) :
  match lexcmp e1 m1 e2 m2 with
  | Lt => (e1 < e2)%Z \/ (e1 = e2 /\ (m1 < m2)%positive)
  | Eq => e1 = e2 /\ m1 = m2
  | Gt => (e2 < e1)%Z \/ (e1 = e2 /\ (m2 < m1)%positive)
  end.
Proof.
  unfold lexcmp. change (Pos.compare_cont Eq m1 m2) with (Pos.compare m1 m2).
  destruct (Z.compare_spec e1 e2); destruct (Pos.compare_spec m1 m2); auto; lia.
Qed.

Lemma SFcompare_finite (s1 : bool) (m1 : positive) (e1 : Z)
    (s2 : bool) (m2 : positive) (e2 : Z) :
  SFcompare (S754_finite s1 m1 e1) (S754_finite s2 m2 e2) =
  Some match s1, s2 with
       | true, false => Lt
       | false, true => Gt
       | false, false => lexcmp e1 m1 e2 m2
       | true, true => CompOpp (lexcmp e1 m1 e2 m2)
       end.
Proof.
  unfold lexcmp. simpl. destruct s1, s2; auto.
  destruct (e1 ?= e2)%Z; reflexivity.
Qed.

Ltac sf_order :=
  rewrite ?SFcompare_finite;
  repeat match goal with s : bool |- _ => destruct s end;
  cbn; try discriminate; try congruence; auto;
  repeat match goal with
  | |- context [lexcmp ?a ?b ?c ?d] =>
      let H := fresh in
      pose proof (lexcmp_spec a b c d) as H; destruct (lexcmp a b c d)
  end;
  cbn; try discriminate; auto; intros; exfalso; lia.

Lemma SFleb_trans (a b c : spec_float) :
  SFleb a b = true -> SFleb b c = true -> SFleb a c = true.
Proof.
  unfold SFleb.
  destruct a as [sa|sa| |sa ma ea], b as [sb|sb| |sb mb eb], c as [sc|sc| |sc mc ec];
    sf_order.
Qed.

Lemma SFleb_total (a b : spec_float) :
  a <> S754_nan -> b <> S754_nan -> SFleb a b = false -> SFleb b a = true.
Proof.
  unfold SFleb.
  destruct a as [sa|sa| |sa ma ea], b as [sb|sb| |sb mb eb]; sf_order.
Qed.

Lemma SFeqb_self (a : spec_float) : SFeqb a a = true <-> a <> S754_nan.
Proof.
  unfold SFeqb.
  destruct a as [sa|sa| |sa ma ea]; split; sf_order.
Qed.

Lemma is_nan_false (x : float) :
  PrimFloat.is_nan x = false <-> Prim2SF x <> S754_nan.
Proof.
  unfold PrimFloat.is_nan. rewrite FloatAxioms.eqb_spec, negb_false_iff. apply SFeqb_self.
Qed.

Lemma leb_trans (x y z : float) :
  (x <=? y)%float = true -> (y <=? z)%float = true -> (x <=? z)%float = true.
Proof. rewrite !FloatAxioms.leb_spec. apply SFleb_trans. Qed.

Lemma leb_total (x y : float) :
  PrimFloat.is_nan x = false -> PrimFloat.is_nan y = false ->
  (x <=? y)%float = false -> (y <=? x)%float = true.
Proof. rewrite !is_nan_false, !FloatAxioms.leb_spec. apply SFleb_total. Qed.

Lemma leb_refl (x : float) :
  PrimFloat.is_nan x = false -> (x <=? x)%float = true.
Proof.
  intros Hx. destruct (x <=? x)%float eqn:H; [reflexivity|].
  rewrite <- H. apply leb_total; assumption.
Qed.

(** ** [np.argmax] finds the first maximum *)


Lemma no_nan_nth (a : ndarray) (j : nat) :
  no_nan a -> (j < length a)%nat -> PrimFloat.is_nan (nth j a 0%float) = false.
Proof.
  intros Ha Hj. unfold no_nan in Ha. rewrite Forall_forall in Ha.
  apply Ha. apply nth_In. exact Hj.
Qed.

(** The scan, started after the prefix [pre] whose first maximum is at
    [best], ends at the first maximum of the whole array. *)
Lemma argmax_scan_spec (l pre : ndarray) (mp : float) (best : nat) :
  no_nan (pre ++ l) ->
  (best < length pre)%nat ->
  nth best pre 0%float = mp ->
  (forall j, (j < length pre)%nat -> (nth j pre 0 <=? mp)%float = true) ->
  (forall j, (j < best)%nat -> (mp <=? nth j pre 0)%float = false) ->
  let r := np.argmax_scan mp best (length pre) l in
  (r < length (pre ++ l))%nat /\
  (forall j, (j < length (pre ++ l))%nat ->
     (nth j (pre ++ l) 0 <=? nth r (pre ++ l) 0)%float = true) /\
  (forall j, (j < r)%nat ->
     (nth r (pre ++ l) 0 <=? nth j (pre ++ l) 0)%float = false).
Proof.
  revert pre mp best.
  induction l as [|x t IH]; intros pre mp best Hnan Hbest Hmp Hall Hfirst; cbn zeta.
  - cbn [np.argmax_scan]. rewrite app_nil_r. rewrite Hmp. auto.
  - assert (Hx : PrimFloat.is_nan x = false).
    { unfold no_nan in Hnan. rewrite Forall_forall in Hnan.
      apply Hnan. apply in_or_app. right. left. reflexivity. }
    assert (Hmpn : PrimFloat.is_nan mp = false).
    { rewrite <- Hmp.
      replace (nth best pre 0%float) with (nth best (pre ++ x :: t) 0%float)
        by (apply app_nth1; exact Hbest).
      apply no_nan_nth; [exact Hnan | rewrite length_app; lia]. }
    assert (Hsplit : pre ++ x :: t = (pre ++ [x]) ++ t)
      by (rewrite <- app_assoc; reflexivity).
    assert (Hlen : length (pre ++ [x]) = S (length pre))
      by (rewrite length_app; simpl; lia).
    cbn [np.argmax_scan]. rewrite Hx.
    destruct (x <=? mp)%float eqn:Hle; cbn [negb].
    + (* the running maximum stays *)
      rewrite Hsplit, <- Hlen.
      apply IH.
      * rewrite <- Hsplit. exact Hnan.
      * rewrite Hlen. lia.
      * rewrite app_nth1 by exact Hbest. exact Hmp.
      * intros j Hj. rewrite Hlen in Hj.
        destruct (Nat.eq_dec j (length pre)) as [->|Hne].
        -- rewrite nth_middle. exact Hle.
        -- rewrite app_nth1 by lia. apply Hall. lia.
      * intros j Hj. rewrite app_nth1 by lia. apply Hfirst. exact Hj.
    + (* [x] is the new running maximum, at index [length pre] *)
      pose proof (leb_total x mp Hx Hmpn Hle) as Hmx.
      rewrite Hsplit, <- Hlen.
      apply IH.
      * rewrite <- Hsplit. exact Hnan.
      * rewrite Hlen. lia.
      * apply nth_middle.
      * intros j Hj. rewrite Hlen in Hj.
        destruct (Nat.eq_dec j (length pre)) as [->|Hne].
        -- rewrite nth_middle. apply leb_refl. exact Hx.
        -- rewrite app_nth1 by lia.
           apply leb_trans with mp; [apply Hall; lia | exact Hmx].
      * intros j Hj. rewrite app_nth1 by lia.
        destruct (x <=? nth j pre 0)%float eqn:Hxj; [|reflexivity].
        rewrite <- Hle. symmetry.
        apply leb_trans with (nth j pre 0%float); [exact Hxj | apply Hall; lia].
Qed.

(** On an array without NaN, [np.argmax] returns the first index that
    attains the global maximum. *)
Lemma argmax_first_maximum (a : ndarray) (p : nat) :
  no_nan a -> np.argmax a = Ret p ->
  (p < length a)%nat /\
  (forall j, (j < length a)%nat -> (nth j a 0 <=? nth p a 0)%float = true) /\
  (forall j, (j < p)%nat -> (nth p a 0 <=? nth j a 0)%float = false).
Proof.
  intros Hnan H. destruct a as [|x t]; [discriminate H|].
  cbn [np.argmax] in H.
  assert (Hx : PrimFloat.is_nan x = false) by (inversion Hnan; assumption).
  rewrite Hx in H. injection H as <-.
  apply (argmax_scan_spec t [x] x 0%nat); auto.
  - intros j Hj. simpl in Hj. replace j with 0%nat by lia. apply leb_refl. exact Hx.
  - intros j Hj. lia.
Qed.

(** * The claims *)

Section Claims.
Context {lib : Numerics} {txt : Text}.
Open Scope float_scope.

(** A table in which both columns are detected has a column, so that
    [pd.read_csv] returned it. *)
Lemma detected_table_read (file : DataFrame) (disp_col load_col : string) :
  detect_columns (map fst (normalise_columns file)) = (Some disp_col, Some load_col) ->
  pd_read_csv file = Ret file.
Proof.
  destruct file as [|c file]; [discriminate | reflexivity].
Qed.

(** Past the checks of lines 25 and 32 and the reading of the table, the
    handler is [analyze_table]. *)
Lemma analyze_past_checks (req : request) (file : DataFrame) :
  files_file req = Some file ->
  (request_area req <=? 0) || (request_gauge_length req <=? 0) = false ->
  pd_read_csv file = Ret file ->
  analyze req = analyze_table file (request_area req) (request_gauge_length req).
Proof.
  intros Hfile Hpos Hread. unfold analyze. rewrite Hfile. cbv zeta.
  rewrite Hpos, Hread. reflexivity.
Qed.


(** C9.  A request with an uploaded file whose area or gauge length is
    [<= 0] is answered with the 400 response "Area and Gauge Length must be
    positive numbers.", whatever the file holds: no column is read and no
    series or point is computed. *)
Theorem nonpositive_geometry_rejected (req : request) (file : DataFrame) :
  files_file req = Some file ->
  (request_area req <=? 0) = true \/ (request_gauge_length req <=? 0) = true ->
  analyze req = JsonError 400 ParametersNotPositive.
Proof.
  intros Hfile Hbad. unfold analyze. rewrite Hfile. cbv zeta.
  destruct Hbad as [H|H]; rewrite H; [reflexivity|].
  rewrite orb_true_r. reflexivity.
Qed.

(** C8.  For aligned displacement and load, the per-point Young's modulus
    has the length of stress and strain; it is [stress[i] / strain[i]]
    where [strain[i] != 0] and [0] where [strain[i] == 0]; and it is the
    array a completed run reports. *)
Theorem youngs_modulus_pointwise (area gauge_length : float) (displacement load : ndarray) :
  length displacement = length load ->
  let stress := to_stress_mpa load area in
  let strain := to_strain displacement gauge_length in
  let ym := youngs_modulus stress strain in
  length ym = length stress /\ length ym = length strain /\
  (forall i s e, nth_error stress i = Some s -> nth_error strain i = Some e ->
     nth_error ym i = Some (if e =? 0 then 0 else s / e)) /\
  (forall st, pipeline area gauge_length displacement load = Ret st ->
     youngs_modulus_arr st = ym).
Proof.
  intros Hlen stress strain ym.
  assert (Hss : length stress = length strain).
  { subst stress strain. rewrite to_stress_mpa_length, to_strain_length. auto. }
  pose proof (youngs_modulus_length stress strain Hss) as Hym. fold ym in Hym.
  split; [congruence|]. split; [exact Hym|]. split.
  - intros i s e Hs He. subst ym. unfold youngs_modulus, np.where_.
    rewrite (map2_nth_error _ _ _ i (negb (e =? 0)) (s / e)).
    + destruct (e =? 0); reflexivity.
    + rewrite nth_error_map, He. reflexivity.
    + apply map2_nth_error; assumption.
  - intros st Hst. apply pipeline_inv in Hst.
    rewrite (run_youngs _ _ _ _ _ Hst), (run_stress _ _ _ _ _ Hst),
      (run_strain _ _ _ _ _ Hst), (run_load _ _ _ _ _ Hst),
      (run_displacement _ _ _ _ _ Hst).
    rewrite Hlen, Nat.min_id, firstn_all.
    rewrite <- Hlen, firstn_all. reflexivity.
Qed.

Lemma elastic_region_nth (stress strain : ndarray) (ms me : float) (i : nat) :
  length stress = length strain -> (i < length stress)%nat ->
  nth i (elastic_region stress strain ms me) false =
  (0.05 * ms <? nth i stress 0) && (nth i strain 0 <? 0.5 * me).
Proof.
  intros Hlen Hi. unfold elastic_region.
  assert (Hs : nth_error stress i = Some (nth i stress 0))
    by (apply nth_error_nth'; exact Hi).
  assert (He : nth_error strain i = Some (nth i strain 0))
    by (apply nth_error_nth'; lia).
  apply nth_error_nth.
  apply map2_nth_error; rewrite nth_error_map; [rewrite Hs | rewrite He]; reflexivity.
Qed.

Lemma elastic_region_length (stress strain : ndarray) (ms me : float) :
  length stress = length strain ->
  length (elastic_region stress strain ms me) = length stress.
Proof.
  intros H. unfold elastic_region. rewrite map2_length, !length_map. lia.
Qed.

(** The indices at which the mask of line 101 holds are the
    elastic-candidate region. *)
Lemma elastic_region_candidates (stress strain : ndarray) (ms me : float) :
  length stress = length strain ->
  filter (fun i => nth i (elastic_region stress strain ms me) false)
         (seq 0 (length stress)) =
  elastic_candidates stress strain ms me.
Proof.
  intros Hlen. unfold elastic_candidates.
  apply filter_ext_in. intros i Hi. apply in_seq in Hi.
  apply elastic_region_nth; [exact Hlen | lia].
Qed.

Lemma any_of_index (mask : list bool) (i : nat) :
  nth i mask false = true -> np.any mask = true.
Proof.
  revert i; induction mask as [|b mask IH]; intros [|i] H; simpl in *;
    try discriminate.
  - rewrite H. reflexivity.
  - unfold np.any in *. simpl. rewrite (IH i H). apply orb_true_r.
Qed.

(** C3.  In a completed run whose elastic-candidate region (the indices
    with [stress > 0.05 * maxStress] and [strain < 0.5 * maxStrain], the
    maxima being [np.max] of the arrays) is not empty, [E] is the mean of
    the region's tangent-modulus values that are at or above the 90th
    percentile of the region's values. *)
Theorem modulus_is_top_decile_mean (area gauge_length : float)
    (displacement0 load0 : ndarray) (st : locals) :
  pipeline area gauge_length displacement0 load0 = Ret st ->
  elastic_candidates (stress_mpa st) (strain st) (max_stress_val st) (max_strain_val st)
    <> [] ->
  np.max (stress_mpa st) = Ret (max_stress_val st) /\
  np.max (strain st) = Ret (max_strain_val st) /\
  E st = spec_scalar_modulus (tangent_modulus_arr st)
           (elastic_candidates (stress_mpa st) (strain st)
              (max_stress_val st) (max_strain_val st)).
Proof.
  intros Hst Hregion. apply pipeline_inv in Hst.
  pose proof (run_lengths _ _ _ _ _ Hst) as HL. cbv zeta in HL.
  destruct HL as (_ & _ & _ & Hstress & Hstrain & _ & _ & Htan & _ & _).
  assert (Hss : length (stress_mpa st) = length (strain st)) by congruence.
  split; [exact (run_max_stress _ _ _ _ _ Hst)|].
  split; [exact (run_max_strain _ _ _ _ _ Hst)|].
  pose proof (run_E _ _ _ _ _ Hst) as HE.
  pose proof (run_mask _ _ _ _ _ Hst) as Hmask.
  set (region := elastic_candidates _ _ _ _) in *.
  assert (Hany : np.any (elastic_mask st) = true).
  { destruct region as [|i region'] eqn:Hr; [congruence|].
    assert (Hin : In i (elastic_candidates (stress_mpa st) (strain st)
                          (max_stress_val st) (max_strain_val st)))
      by (fold region; rewrite Hr; left; reflexivity).
    unfold elastic_candidates in Hin. apply filter_In in Hin.
    destruct Hin as [Hi Hc]. apply in_seq in Hi.
    apply (any_of_index _ i). rewrite Hmask.
    rewrite elastic_region_nth; [exact Hc | exact Hss | lia]. }
  unfold elastic_modulus in HE. rewrite Hany in HE. injection HE as HE.
  rewrite <- HE. unfold top_decile_mean, spec_scalar_modulus.
  assert (Hvals : mask_select (tangent_modulus_arr st) (elastic_mask st) =
                  map (fun i => nth i (tangent_modulus_arr st) 0) region).
  { rewrite (mask_select_indices _ _ 0).
    - assert (Hfilt : filter (fun i => nth (i - 0) (elastic_mask st) false)
                        (seq 0 (length (tangent_modulus_arr st))) = region).
      { rewrite Htan, <- Hstress. unfold region.
        rewrite <- (elastic_region_candidates _ _ _ _ Hss).
        apply filter_ext. intros i. rewrite Nat.sub_0_r, Hmask. reflexivity. }
      rewrite Hfilt. apply map_ext. intros i. now rewrite Nat.sub_0_r.
    - rewrite Hmask, elastic_region_length; congruence. }
  rewrite Hvals. rewrite mask_select_as_filter. reflexivity.
Qed.

(** C4, as the code has it.  For every tangent array with one slope per
    sample, the fallback expression of line 110 returns a value (it never
    raises): exactly [1.0] when there are at most 5 samples, and otherwise
    the [np.max] of the first [max(5, int(len * 0.2))] tangent-modulus
    values.  That value is the [E] of every completed run over these arrays
    whose elastic mask holds nowhere. *)
Theorem fallback_modulus_value (tangent strain_arr : ndarray) :
  length tangent = length strain_arr ->
  let n := length strain_arr in
  exists E0,
    fallback_modulus tangent strain_arr = Ret E0 /\
    ((n <= 5)%nat -> E0 = 1.0) /\
    ((5 < n)%nat ->
       np.max (firstn (Z.to_nat (Z.max 5 (py_int (float_of_nat n * 0.2)))) tangent)
       = Ret E0) /\
    (forall area gauge_length displacement0 load0 st,
       pipeline area gauge_length displacement0 load0 = Ret st ->
       tangent_modulus_arr st = tangent -> strain st = strain_arr ->
       np.any (elastic_mask st) = false ->
       E st = E0).
Proof.
  intros Hlen n.
  destruct (fallback_modulus_total tangent strain_arr Hlen) as [E0 HE0].
  exists E0. split; [exact HE0|].
  pose proof HE0 as HE. unfold fallback_modulus in HE. fold n in HE.
  split; [|split].
  - intros Hn. apply Nat.ltb_ge in Hn. rewrite Hn in HE. injection HE as <-. reflexivity.
  - intros Hn. apply Nat.ltb_lt in Hn. rewrite Hn in HE. exact HE.
  - intros area gauge_length displacement0 load0 st Hst Ht Hs Hany.
    apply pipeline_inv in Hst.
    pose proof (run_E _ _ _ _ _ Hst) as HEst.
    unfold elastic_modulus in HEst. rewrite Hany, Ht, Hs, HE0 in HEst.
    injection HEst as <-. reflexivity.
Qed.

(** The fallback never raises, whatever the arrays. *)
Lemma fallback_modulus_never_raises (tangent strain : ndarray) :
  length tangent = length strain ->
  is_Ret (fallback_modulus tangent strain) = true.
Proof.
  intros H. destruct (fallback_modulus_total tangent strain H) as [E0 ->]. reflexivity.
Qed.

(** For every length below 1000, [int(len * 0.2)] is a fifth of the
    length, rounded down. *)
Lemma twenty_percent (n : nat) :
  (Z.of_nat n < 1000)%Z -> py_int (float_of_nat n * 0.2) = (Z.of_nat n / 5)%Z.
Proof.
  intros Hn.
  assert (Hall : forallb (fun k => (py_int (float_of_nat k * 0.2) =? Z.of_nat k / 5)%Z)
                         (seq 0 (Z.to_nat 1000)) = true) by (vm_compute; reflexivity).
  rewrite forallb_forall in Hall.
  apply Z.eqb_eq. apply Hall. apply in_seq. lia.
Qed.

Lemma SFltb_false_leb (a b : spec_float) :
  a <> S754_nan -> b <> S754_nan -> SFltb a b = false -> SFleb b a = true.
Proof.
  unfold SFltb, SFleb.
  destruct a as [sa|sa| |sa ma ea], b as [sb|sb| |sb mb eb]; sf_order.
Qed.

(** Away from NaN, "not strictly below" is "on or above". *)
Lemma ltb_false_leb (x y : float) :
  PrimFloat.is_nan x = false -> PrimFloat.is_nan y = false ->
  (x <? y) = false -> (y <=? x) = true.
Proof.
  rewrite !is_nan_false, FloatAxioms.ltb_spec, FloatAxioms.leb_spec.
  apply SFltb_false_leb.
Qed.

Lemma offset_nth (Emod : float) (strain : ndarray) (k : nat) :
  (k < length strain)%nat ->
  nth k (map (fun e => Emod * (e - 0.002)) strain) 0 = Emod * (nth k strain 0 - 0.002).
Proof.
  intros Hk. apply nth_error_nth.
  rewrite nth_error_map, (nth_error_nth' strain 0 Hk). reflexivity.
Qed.

(** C5, as the code has it.  When a yield index [yi] is reported, the next
    index [yi + 1] exists and its sample passes the test of line 118: its
    strain is above 0.002 and its stress is strictly below the offset line.
    When moreover [yi >= 0], the sample at [yi] fails that test: its strain
    is not above 0.002 or its stress is not strictly below the offset line
    (so, no NaN involved, it is on or above the line unless its strain is
    at most 0.002). *)
Theorem yield_bracket (area gauge_length : float)
    (displacement0 load0 : ndarray) (st : locals) (yi : Z) :
  pipeline area gauge_length displacement0 load0 = Ret st ->
  yield_index st = Some yi ->
  let offsetStress := fun e => E st * (e - 0.002) in
  let next := Z.to_nat (yi + 1) in
  let here := Z.to_nat yi in
  (-1 <= yi)%Z /\ (next < length (strain st))%nat /\
  (0.002 <? nth next (strain st) 0) = true /\
  (nth next (stress_mpa st) 0 <? offsetStress (nth next (strain st) 0)) = true /\
  ((0 <= yi)%Z ->
     ((0.002 <? nth here (strain st) 0) = false \/
      (nth here (stress_mpa st) 0 <? offsetStress (nth here (strain st) 0)) = false) /\
     (PrimFloat.is_nan (nth here (strain st) 0) = false ->
      PrimFloat.is_nan (nth here (stress_mpa st) 0) = false ->
      PrimFloat.is_nan (offsetStress (nth here (strain st) 0)) = false ->
      (nth here (strain st) 0 <=? 0.002) = true \/
      (offsetStress (nth here (strain st) 0) <=? nth here (stress_mpa st) 0) = true)).
Proof.
  intros Hst Hyi offsetStress next here. apply pipeline_inv in Hst.
  pose proof (run_lengths _ _ _ _ _ Hst) as HL. cbv zeta in HL.
  destruct HL as (_ & _ & _ & Hstress & Hstrain & _ & _ & _ & Hoff & _).
  pose proof (run_yield_index _ _ _ _ _ Hst) as Hscan. rewrite Hyi in Hscan.
  symmetry in Hscan.
  assert (Hss : length (stress_mpa st) = length (strain st)) by congruence.
  assert (Hos : length (offset_stress st) = length (strain st)) by congruence.
  destruct (yield_scan_some _ _ _ _ _ Hss Hos Hscan)
    as [k [Hk [Hlt [Hcross Hbefore]]]].
  assert (Hnext : next = k) by (subst next; lia).
  pose proof (run_offset _ _ _ _ _ Hst) as Hoffset.
  assert (Hoffk : forall j, (j < length (strain st))%nat ->
            nth j (offset_stress st) 0 = offsetStress (nth j (strain st) 0)).
  { intros j Hj. rewrite Hoffset. apply offset_nth. exact Hj. }
  rewrite Hnext.
  unfold crosses in Hcross. rewrite (Hoffk k Hlt) in Hcross.
  apply andb_true_iff in Hcross. destruct Hcross as [Hc1 Hc2].
  split; [lia|]. split; [exact Hlt|]. split; [exact Hc1|]. split; [exact Hc2|].
  intros Hpos.
  assert (Hhere : (here < k)%nat) by (subst here; lia).
  specialize (Hbefore here Hhere). unfold crosses in Hbefore.
  rewrite (Hoffk here ltac:(lia)) in Hbefore.
  apply andb_false_iff in Hbefore.
  split; [exact Hbefore|].
  intros Hn1 Hn2 Hn3.
  destruct Hbefore as [Hb|Hb].
  - left. apply ltb_false_leb; auto.
  - right. apply ltb_false_leb; auto.
Qed.

(** C6.  In a completed run, [peak_idx] is what [np.argmax] returns for the
    stress array, the fracture index lies in [[peak_idx, length - 1]], and,
    the stress array holding no NaN, [peak_idx] is the first index that
    attains the global maximum of stress. *)
Theorem fracture_index_in_range (area gauge_length : float)
    (displacement0 load0 : ndarray) (st : locals) :
  pipeline area gauge_length displacement0 load0 = Ret st ->
  let n := Z.of_nat (length (stress_mpa st)) in
  let peak := Z.to_nat (peak_idx st) in
  np.argmax (stress_mpa st) = Ret peak /\
  (0 <= peak_idx st)%Z /\
  (peak_idx st <= fracture_idx st <= n - 1)%Z /\
  (no_nan (stress_mpa st) ->
     (forall j, (j < length (stress_mpa st))%nat ->
        (nth j (stress_mpa st) 0 <=? nth peak (stress_mpa st) 0) = true) /\
     (forall j, (j < peak)%nat ->
        (nth peak (stress_mpa st) 0 <=? nth j (stress_mpa st) 0) = false)).
Proof.
  intros Hst n peak. apply pipeline_inv in Hst.
  pose proof (run_lengths _ _ _ _ _ Hst) as HL. cbv zeta in HL.
  destruct HL as (_ & _ & _ & Hstress & _ & _ & _ & Htan & _ & _).
  destruct (run_peak _ _ _ _ _ Hst) as [p [Hp Hpeak]].
  assert (Hpk : peak = p) by (subst peak; rewrite Hpeak; apply Nat2Z.id).
  rewrite Hpk.
  pose proof (argmax_bound _ _ Hp) as Hpb.
  pose proof (run_fracture _ _ _ _ _ Hst) as Hf. rewrite Hpeak in Hf.
  apply fracture_index_bounds in Hf; [|lia].
  split; [exact Hp|]. split; [lia|]. split; [subst n; lia|].
  intros Hnan.
  destruct (argmax_first_maximum _ _ Hnan Hp) as (_ & Hmax & Hfirst).
  split; assumption.
Qed.

Lemma getitem_last (arr : ndarray) :
  arr <> [] -> getitem arr (-1) = Ret (last arr 0).
Proof.
  intros Hne.
  rewrite (app_removelast_last 0 Hne) at 1.
  apply getitem_minus_one.
Qed.

(** C2, what the code does.  In a completed run where the test of line 118
    already holds at index 0, the reported yield index is [-1] and the
    reported yield point is read at index [-1], that is, from the last
    sample of the series. *)
Theorem yield_at_first_sample_reads_last (area gauge_length : float)
    (displacement0 load0 : ndarray) (st : locals) :
  pipeline area gauge_length displacement0 load0 = Ret st ->
  crosses (nth 0 (strain st) 0) (nth 0 (stress_mpa st) 0)
          (E st * (nth 0 (strain st) 0 - 0.002)) = true ->
  yield_index st = Some (-1)%Z /\
  yield_point st = Some {| pt_strain := last (strain st) 0;
                           pt_stress := last (stress_mpa st) 0;
                           pt_slope_angle := last (slope_angles st) 0 |}.
Proof.
  intros Hst Hcross. apply pipeline_inv in Hst.
  pose proof (run_lengths _ _ _ _ _ Hst) as HL. cbv zeta in HL.
  destruct HL as (Hn & _ & _ & Hstress & Hstrain & _ & Hang & _ & Hoff & _).
  pose proof (run_yield_index _ _ _ _ _ Hst) as Hscan.
  pose proof (run_yield_point _ _ _ _ _ Hst) as Hpoint.
  pose proof (run_offset _ _ _ _ _ Hst) as Hoffset.
  assert (Hyi : yield_index st = Some (-1)%Z).
  { rewrite Hscan.
    assert (Ho0 : nth 0 (offset_stress st) 0 = E st * (nth 0 (strain st) 0 - 0.002))
      by (rewrite Hoffset; apply offset_nth; lia).
    rewrite <- Ho0 in Hcross.
    destruct (strain st) as [|e es]; [simpl in Hstrain; lia|].
    destruct (stress_mpa st) as [|s ss]; [simpl in Hstress; lia|].
    destruct (offset_stress st) as [|o os]; [simpl in Hoff; lia|].
    apply yield_scan_first. exact Hcross. }
  split; [exact Hyi|].
  rewrite Hyi in Hpoint. destruct Hpoint as [p [Hp ->]].
  unfold point_at in Hp.
  rewrite !getitem_last in Hp.
  - cbn [bind] in Hp. injection Hp as <-. reflexivity.
  - intros E0. rewrite E0 in Hang. simpl in Hang. lia.
  - intros E0. rewrite E0 in Hstress. simpl in Hstress. lia.
  - intros E0. rewrite E0 in Hstrain. simpl in Hstrain. lia.
Qed.

(** The handler of [ValueError] at lines 91-92 is never entered: for arrays
    of one length the tangent modulus is what [np.gradient] returns or
    raises. *)
Lemma tangent_modulus_is_gradient (stress strain : ndarray) :
  length strain = length stress ->
  tangent_modulus stress strain = np.gradient stress strain.
Proof.
  intros Hlen. unfold tangent_modulus.
  destruct (gradient_cases stress strain Hlen) as [[_ H]|[_ [g [H _]]]];
    rewrite H; reflexivity.
Qed.

(** C7, what the code does.  Two samples of equal displacement give a
    strain array with a single distinct value; the tangent modulus is then
    a division by the zero spacing, here [infinity] at both samples, not a
    zero array.  A single sample makes the computation fail. *)
Theorem degenerate_strain_tangent :
  to_strain [5; 5] 1 = [0.005; 0.005] /\
  tangent_modulus (to_stress_mpa [0; 100] 1) (to_strain [5; 5] 1)
    = Ret [infinity; infinity] /\
  np.zeros_like (to_stress_mpa [0; 100] 1) = [0; 0] /\
  tangent_modulus (to_stress_mpa [100] 1) (to_strain [5] 1) = Raise IndexError.
Proof. vm_compute. repeat split; reflexivity. Qed.

(** *** The peak index and the load *)


Lemma argmax_scan_map (f : float -> float) (P : float -> Prop)
    (l : ndarray) (mp : float) (best i : nat) :
  (forall x, P x -> PrimFloat.is_nan (f x) = PrimFloat.is_nan x) ->
  (forall x y, P x -> P y -> (f x <=? f y) = (x <=? y)) ->
  P mp -> Forall P l ->
  np.argmax_scan (f mp) best i (map f l) = np.argmax_scan mp best i l.
Proof.
  intros Hnan Hle.
  revert mp best i; induction l as [|x t IH]; intros mp best i Hmp Hl; [reflexivity|].
  inversion Hl as [|x' t' Hx Ht]; subst.
  cbn [map np.argmax_scan].
  rewrite (Hle x mp Hx Hmp), (Hnan x Hx).
  destruct (negb (x <=? mp)); [destruct (PrimFloat.is_nan x)|]; auto.
Qed.

Lemma argmax_map_order_preserved (f : float -> float) (a : ndarray) :
  order_preserved f a -> np.argmax (map f a) = np.argmax a.
Proof.
  intros H. unfold order_preserved in H. rewrite Forall_forall in H.
  destruct a as [|x t]; [reflexivity|].
  cbn [map np.argmax].
  assert (Hx : In x (x :: t)) by (left; reflexivity).
  destruct (H x Hx) as [Hnx _]. rewrite Hnx.
  destruct (PrimFloat.is_nan x); [reflexivity|].
  f_equal.
  apply (argmax_scan_map f (fun y => In y (x :: t))).
  - intros y Hy. apply (H y Hy).
  - intros y z Hy Hz. destruct (H y Hy) as [_ Hyz].
    rewrite Forall_forall in Hyz. apply Hyz. exact Hz.
  - exact Hx.
  - apply Forall_forall. intros y Hy. right. exact Hy.
Qed.

(** C10, as the code has it.  In a completed run, when the scaling
    [l / area / 1e6] keeps the comparisons between the load samples (as
    exact division by a positive area would; binary64 division can merge
    distinct loads by rounding, underflow or overflow), the peak index is
    the index [np.argmax] returns for the load, whatever the area. *)
Theorem peak_index_of_load (area gauge_length : float)
    (displacement0 load0 : ndarray) (st : locals) :
  pipeline area gauge_length displacement0 load0 = Ret st ->
  order_preserved (fun l => l / area / 1e6) (load st) ->
  stress_mpa st = map (fun l => l / area / 1e6) (load st) /\
  np.argmax (stress_mpa st) = np.argmax (load st) /\
  np.argmax (load st) = Ret (Z.to_nat (peak_idx st)).
Proof.
  intros Hst Hord. apply pipeline_inv in Hst.
  assert (Hs : stress_mpa st = map (fun l => l / area / 1e6) (load st)).
  { rewrite (run_stress _ _ _ _ _ Hst). unfold to_stress_mpa. apply map_map. }
  split; [exact Hs|].
  assert (Harg : np.argmax (stress_mpa st) = np.argmax (load st)).
  { rewrite Hs. apply argmax_map_order_preserved. exact Hord. }
  split; [exact Harg|].
  destruct (run_peak _ _ _ _ _ Hst) as [p [Hp Hpeak]].
  rewrite <- Harg, Hp, Hpeak, Nat2Z.id. reflexivity.
Qed.

(** Whatever the request, a result body holds at least two samples. *)
Lemma result_has_two_samples (req : request) (body : payload) :
  analyze req = JsonOk body ->
  (2 <= length (js_stress body))%nat /\
  length (js_strain body) = length (js_stress body) /\
  length (js_displacement body) = length (js_stress body) /\
  length (js_load body) = length (js_stress body).
Proof.
  unfold analyze.
  destruct (files_file req) as [file|]; [|discriminate].
  cbv zeta.
  destruct ((request_area req <=? 0) || (request_gauge_length req <=? 0)); [discriminate|].
  destruct (pd_read_csv file) as [table|]; [|discriminate].
  unfold analyze_table. cbv zeta.
  destruct (detect_columns _) as [[disp_col|] [load_col|]]; try discriminate.
  destruct (analyze_columns _ _ _ _ _) as [b|e] eqn:Hcols; [|discriminate].
  intros [= <-]. unfold analyze_columns in Hcols.
  destruct (to_numeric_column _ disp_col) as [d|]; cbn [bind] in Hcols; [|discriminate].
  destruct (to_numeric_column _ load_col) as [l|]; cbn [bind] in Hcols; [|discriminate].
  destruct (pipeline _ _ _ _) as [st|] eqn:Hst; cbn [bind] in Hcols; [|discriminate].
  injection Hcols as <-. cbn.
  apply pipeline_inv in Hst.
  pose proof (run_lengths _ _ _ _ _ Hst) as HL. cbv zeta in HL.
  destruct HL as (Hn & Hd & Hl & Hs & He & _).
  repeat split; congruence.
Qed.

(** With or without an uploaded file, a request whose area or gauge length
    is [<= 0] is answered with status 400. *)
Lemma nonpositive_geometry_status (req : request) :
  (request_area req <=? 0) = true \/ (request_gauge_length req <=? 0) = true ->
  analyze req =
  JsonError 400 match files_file req with
                | Some _ => ParametersNotPositive
                | None => NoFileUploaded
                end.
Proof.
  intros Hbad. unfold analyze.
  destruct (files_file req) as [file|]; [|reflexivity].
  cbv zeta. destruct Hbad as [H|H]; rewrite H; [reflexivity|].
  rewrite orb_true_r. reflexivity.
Qed.

End Claims.

(** * The claims on concrete runs *)
Local Open Scope float_scope.

Ltac run_value H Hst :=
  pose proof H as Hst; vm_compute in Hst; injection Hst as Hst.


Lemma nonpositive_geometry_witness :
  (request_area Runs.zero_area_request <=? 0)%float = true /\
  analyze (lib := Sample.numerics) (txt := Sample.text) Runs.zero_area_request
    = JsonError 400 ParametersNotPositive.
Proof.
  split; [reflexivity|].
  apply (nonpositive_geometry_rejected (lib := Sample.numerics) (txt := Sample.text)
           Runs.zero_area_request Runs.one_row_file); [reflexivity|].
  left. reflexivity.
Defined.

Lemma youngs_modulus_witness :
  length Runs.scenario1_displacement = length Runs.scenario1_load /\
  length (youngs_modulus
            (to_stress_mpa Runs.scenario1_load Runs.scenario1_area)
            (to_strain Runs.scenario1_displacement Runs.scenario1_gauge_length))
  = length (to_strain Runs.scenario1_displacement Runs.scenario1_gauge_length).
Proof.
  split; [reflexivity|].
  apply (youngs_modulus_pointwise (lib := Sample.numerics)
           Runs.scenario1_area Runs.scenario1_gauge_length
           Runs.scenario1_displacement Runs.scenario1_load).
  reflexivity.
Defined.

Lemma modulus_witness :
  exists st,
    pipeline (lib := Sample.numerics) Runs.scenario1_area Runs.scenario1_gauge_length
      Runs.scenario1_displacement Runs.scenario1_load = Ret st /\
    elastic_candidates (stress_mpa st) (strain st) (max_stress_val st) (max_strain_val st)
      = [1; 2]%nat /\
    E st = spec_scalar_modulus (lib := Sample.numerics) (tangent_modulus_arr st) [1; 2]%nat.
Proof.
  destruct (pipeline_total (lib := Sample.numerics) Runs.scenario1_area
              Runs.scenario1_gauge_length Runs.scenario1_displacement Runs.scenario1_load)
    as [st H]; [simpl; lia|].
  run_value H Hst.
  assert (Hregion : elastic_candidates (stress_mpa st) (strain st)
                      (max_stress_val st) (max_strain_val st) = [1; 2]%nat)
    by (rewrite <- Hst; vm_compute; reflexivity).
  exists st. split; [exact H|]. split; [exact Hregion|].
  rewrite <- Hregion.
  apply (modulus_is_top_decile_mean (lib := Sample.numerics) _ _ _ _ st H).
  rewrite Hregion. discriminate.
Defined.

(** Six samples without load: the elastic mask holds nowhere. *)
Lemma fallback_modulus_witness :
  exists st,
    pipeline (lib := Sample.numerics) 1 1 [1; 2; 3; 4; 5; 6] [0; 0; 0; 0; 0; 0] = Ret st /\
    length (tangent_modulus_arr st) = length (strain st) /\
    np.any (elastic_mask st) = false /\
    np.max (firstn 5 (tangent_modulus_arr st)) = Ret (E st).
Proof.
  destruct (pipeline_total (lib := Sample.numerics) 1 1
              [1; 2; 3; 4; 5; 6] [0; 0; 0; 0; 0; 0]) as [st H]; [simpl; lia|].
  run_value H Hst.
  assert (Hany : np.any (elastic_mask st) = false) by (rewrite <- Hst; reflexivity).
  assert (Hlen : length (tangent_modulus_arr st) = length (strain st))
    by (rewrite <- Hst; reflexivity).
  assert (Hn : length (strain st) = 6%nat) by (rewrite <- Hst; reflexivity).
  exists st. split; [exact H|]. split; [exact Hlen|]. split; [exact Hany|].
  destruct (fallback_modulus_value (lib := Sample.numerics)
              (tangent_modulus_arr st) (strain st) Hlen) as (E0 & _ & _ & Hmax & Hrun).
  rewrite (Hrun _ _ _ _ st H eq_refl eq_refl Hany).
  rewrite Hn in Hmax. apply Hmax. lia.
Defined.

Lemma yield_bracket_witness :
  exists st,
    pipeline (lib := Sample.numerics) Runs.scenario1_area Runs.scenario1_gauge_length
      Runs.scenario1_displacement Runs.scenario1_load = Ret st /\
    yield_index st = Some 2%Z /\
    (nth 3 (stress_mpa st) 0 <? E st * (nth 3 (strain st) 0 - 0.002))%float = true.
Proof.
  destruct (pipeline_total (lib := Sample.numerics) Runs.scenario1_area
              Runs.scenario1_gauge_length Runs.scenario1_displacement Runs.scenario1_load)
    as [st H]; [simpl; lia|].
  run_value H Hst.
  assert (Hyi : yield_index st = Some 2%Z) by (rewrite <- Hst; reflexivity).
  exists st. split; [exact H|]. split; [exact Hyi|].
  apply (yield_bracket (lib := Sample.numerics) _ _ _ _ st 2%Z H Hyi).
Defined.

Lemma fracture_index_witness :
  exists st,
    pipeline (lib := Sample.numerics) Runs.scenario1_area Runs.scenario1_gauge_length
      Runs.scenario1_displacement Runs.scenario1_load = Ret st /\
    (peak_idx st <= fracture_idx st <= Z.of_nat (length (stress_mpa st)) - 1)%Z.
Proof.
  destruct (pipeline_total (lib := Sample.numerics) Runs.scenario1_area
              Runs.scenario1_gauge_length Runs.scenario1_displacement Runs.scenario1_load)
    as [st H]; [simpl; lia|].
  exists st. split; [exact H|].
  apply (fracture_index_in_range (lib := Sample.numerics) _ _ _ _ st H).
Defined.

(** Two samples without load, both beyond 0.2 % strain: the test of line
    118 holds at index 0. *)
Lemma yield_at_first_sample_witness :
  exists st,
    pipeline (lib := Sample.numerics) 1 1 [10; 20] [0; 0] = Ret st /\
    strain st = [0.01; 0.02]%float /\
    yield_index st = Some (-1)%Z /\
    option_map pt_strain (yield_point st) = Some 0.02%float.
Proof.
  destruct (pipeline_total (lib := Sample.numerics) 1 1 [10; 20] [0; 0])
    as [st H]; [simpl; lia|].
  run_value H Hst.
  assert (Hstrain : strain st = [0.01; 0.02]%float) by (rewrite <- Hst; reflexivity).
  exists st. split; [exact H|]. split; [exact Hstrain|].
  destruct (yield_at_first_sample_reads_last (lib := Sample.numerics) _ _ _ _ st H)
    as [Hyi Hyp].
  - rewrite <- Hst. vm_compute. reflexivity.
  - split; [exact Hyi|]. rewrite Hyp, Hstrain. reflexivity.
Defined.

Lemma peak_index_witness :
  exists st,
    pipeline (lib := Sample.numerics) Runs.scenario1_area Runs.scenario1_gauge_length
      Runs.scenario1_displacement Runs.scenario1_load = Ret st /\
    np.argmax (load st) = Ret (Z.to_nat (peak_idx st)).
Proof.
  destruct (pipeline_total (lib := Sample.numerics) Runs.scenario1_area
              Runs.scenario1_gauge_length Runs.scenario1_displacement Runs.scenario1_load)
    as [st H]; [simpl; lia|].
  run_value H Hst.
  exists st. split; [exact H|].
  apply (peak_index_of_load (lib := Sample.numerics) _ _ _ _ st H).
  rewrite <- Hst. cbn [load]. unfold order_preserved.
  repeat (apply Forall_cons || apply Forall_nil || split); vm_compute; reflexivity.
Defined.

(** ** Where the specification and the code part *)


(** C4 as stated fails with exactly 5 samples: the elastic mask holds
    nowhere, the first 5 tangent-modulus values have maximum 0, and [E] is
    1.0. *)
Lemma fallback_five_samples :
  exists st,
    pipeline (lib := Sample.numerics) 1 1 [1; 2; 3; 4; 5] [0; 0; 0; 0; 0] = Ret st /\
    length (strain st) = 5%nat /\
    np.any (elastic_mask st) = false /\
    np.max (firstn 5 (tangent_modulus_arr st)) = Ret 0%float /\
    E st = 1%float /\
    (1 =? 0)%float = false.
Proof.
  eexists. split; [vm_compute; reflexivity|].
  vm_compute. repeat split; reflexivity.
Qed.

(** C5 as stated fails when the sample before the crossing has a strain of
    at most 0.002 and lies below the offset line: the yield index is 0,
    where the stress -1 is below the offset line at -0.002. *)
Lemma yield_sample_below_offset_line :
  exists st,
    pipeline (lib := Sample.numerics) 1 1 [0; 10] [-1e6; 0] = Ret st /\
    yield_index st = Some 0%Z /\
    nth 0 (strain st) 0%float = 0%float /\
    nth 0 (stress_mpa st) 0%float = (-1)%float /\
    (E st * (nth 0 (strain st) 0 - 0.002))%float = (-0.002)%float /\
    (E st * (nth 0 (strain st) 0 - 0.002) <=? nth 0 (stress_mpa st) 0)%float = false.
Proof.
  eexists. split; [vm_compute; reflexivity|].
  vm_compute. repeat split; reflexivity.
Qed.

(** C10 as stated fails when the division overflows: both stresses are
    [infinity], the peak index is 0, and the load peaks at index 1. *)
Lemma peak_index_after_overflow :
  (0 <? 1e-10)%float = true /\
  to_stress_mpa [1e300; 2e300]%float 1e-10 = [infinity; infinity] /\
  np.argmax (to_stress_mpa [1e300; 2e300]%float 1e-10) = Ret 0%nat /\
  np.argmax [1e300; 2e300]%float = Ret 1%nat /\
  exists st,
    pipeline (lib := Sample.numerics) 1e-10 1 [0; 1] [1e300; 2e300] = Ret st /\
    load st = [1e300; 2e300]%float /\ peak_idx st = 0%Z.
Proof.
  repeat split; try (vm_compute; reflexivity).
  eexists. split; [vm_compute; reflexivity|].
  vm_compute. repeat split; reflexivity.
Qed.

(** * Further properties of the handler *)

(** ** Column detection (lines 45-60) *)

Lemma detect_columns_snoc (columns : list string) (col : string) :
  detect_columns (columns ++ [col]) =
  (if names_displacement col then Some col else fst (detect_columns columns),
   if names_load col then Some col else snd (detect_columns columns)).
Proof.
  unfold detect_columns. rewrite fold_left_app. reflexivity.
Qed.

Lemma detected_displacement_spec (columns : list string) :
  match fst (detect_columns columns) with
  | None => forall c, In c columns -> names_displacement c = false
  | Some col =>
      exists before after,
        columns = before ++ col :: after /\ names_displacement col = true /\
        forall c, In c after -> names_displacement c = false
  end.
Proof.
  induction columns as [|col columns IH] using rev_ind.
  - simpl. intros c [].
  - rewrite detect_columns_snoc. cbn [fst].
    destruct (names_displacement col) eqn:Hcol.
    + exists columns, []. repeat split; auto. intros c [].
    + destruct (fst (detect_columns columns)) as [found|].
      * destruct IH as (before & after & Heq & Hfound & Hafter).
        exists before, (after ++ [col]). repeat split; auto.
        -- rewrite Heq, <- app_assoc. reflexivity.
        -- intros c Hc. apply in_app_or in Hc. destruct Hc as [Hc|[<-|[]]]; auto.
      * intros c Hc. apply in_app_or in Hc. destruct Hc as [Hc|[<-|[]]]; auto.
Qed.

Lemma detected_load_spec (columns : list string) :
  match snd (detect_columns columns) with
  | None => forall c, In c columns -> names_load c = false
  | Some col =>
      exists before after,
        columns = before ++ col :: after /\ names_load col = true /\
        forall c, In c after -> names_load c = false
  end.
Proof.
  induction columns as [|col columns IH] using rev_ind.
  - simpl. intros c [].
  - rewrite detect_columns_snoc. cbn [snd].
    destruct (names_load col) eqn:Hcol.
    + exists columns, []. repeat split; auto. intros c [].
    + destruct (snd (detect_columns columns)) as [found|].
      * destruct IH as (before & after & Heq & Hfound & Hafter).
        exists before, (after ++ [col]). repeat split; auto.
        -- rewrite Heq, <- app_assoc. reflexivity.
        -- intros c Hc. apply in_app_or in Hc. destruct Hc as [Hc|[<-|[]]]; auto.
      * intros c Hc. apply in_app_or in Hc. destruct Hc as [Hc|[<-|[]]]; auto.
Qed.

(** Among several columns whose names pass a test of the detection loop,
    the last one is chosen: each detected column passes its test and no
    later column does; no column is detected only when none passes. *)
Theorem detect_columns_last_match (columns : list string) :
  (forall col, fst (detect_columns columns) = Some col ->
     exists before after,
       columns = before ++ col :: after /\ names_displacement col = true /\
       forall c, In c after -> names_displacement c = false) /\
  (forall col, snd (detect_columns columns) = Some col ->
     exists before after,
       columns = before ++ col :: after /\ names_load col = true /\
       forall c, In c after -> names_load c = false) /\
  (fst (detect_columns columns) = None <->
     forall c, In c columns -> names_displacement c = false) /\
  (snd (detect_columns columns) = None <->
     forall c, In c columns -> names_load c = false).
Proof.
  pose proof (detected_displacement_spec columns) as Hd.
  pose proof (detected_load_spec columns) as Hl.
  repeat split.
  - intros col Hcol. rewrite Hcol in Hd. exact Hd.
  - intros col Hcol. rewrite Hcol in Hl. exact Hl.
  - intros Hnone. rewrite Hnone in Hd. exact Hd.
  - intros Hall. destruct (fst (detect_columns columns)) as [col|]; [|reflexivity].
    destruct Hd as (before & after & Heq & Hcol & _).
    rewrite Hall in Hcol; [discriminate|].
    rewrite Heq. apply in_or_app. right. left. reflexivity.
  - intros Hnone. rewrite Hnone in Hl. exact Hl.
  - intros Hall. destruct (snd (detect_columns columns)) as [col|]; [|reflexivity].
    destruct Hl as (before & after & Heq & Hcol & _).
    rewrite Hall in Hcol; [discriminate|].
    rewrite Heq. apply in_or_app. right. left. reflexivity.
Qed.

Section Handler.
Context {lib : Numerics} {txt : Text}.
Open Scope float_scope.

(** An upload that has columns, of which no normalised name contains
    "disp", "extension" or "delta", or none contains "load" or "force", is
    answered with the 400 response that lists the normalised column names,
    provided the geometry passed the check of line 32.  (An upload without
    any column does not get that far: [pd.read_csv] raises and the answer is
    the 500 response.) *)
Theorem undetected_columns_rejected (req : request) (file : DataFrame) :
  files_file req = Some file ->
  (request_area req <=? 0) || (request_gauge_length req <=? 0) = false ->
  file <> [] ->
  (forall c, In c (map fst (normalise_columns file)) -> names_displacement c = false) \/
  (forall c, In c (map fst (normalise_columns file)) -> names_load c = false) ->
  analyze req = JsonError 400 (ColumnsNotDetected (map fst (normalise_columns file))) /\
  (forall empty_req,
     files_file empty_req = Some [] ->
     (request_area empty_req <=? 0) || (request_gauge_length empty_req <=? 0) = false ->
     analyze empty_req = JsonError 500 (ExceptionText ValueError)).
Proof.
  intros Hfile Hpos Hcols Hmissing. split.
  - assert (Hread : pd_read_csv file = Ret file)
      by (destruct file; [congruence | reflexivity]).
    rewrite (analyze_past_checks req file Hfile Hpos Hread).
    unfold analyze_table. cbv zeta.
    pose proof (detected_displacement_spec (map fst (normalise_columns file))) as Hd.
    pose proof (detected_load_spec (map fst (normalise_columns file))) as Hl.
    destruct (detect_columns (map fst (normalise_columns file))) as [d l] eqn:Hdet.
    cbn [fst snd] in Hd, Hl.
    destruct Hmissing as [H|H].
    + destruct d as [col|]; [|reflexivity].
      destruct Hd as (before & after & Heq & Hcol & _).
      rewrite H in Hcol; [discriminate|].
      rewrite Heq. apply in_or_app. right. left. reflexivity.
    + destruct l as [col|]; [|destruct d; reflexivity].
      destruct Hl as (before & after & Heq & Hcol & _).
      rewrite H in Hcol; [discriminate|].
      rewrite Heq. apply in_or_app. right. left. reflexivity.
  - intros empty_req He Hp. unfold analyze. rewrite He. cbv zeta. rewrite Hp.
    reflexivity.
Qed.

End Handler.

(** ** Completion of the analysis (lines 62-202) *)

Section Completion.
Context {lib : Numerics} {txt : Text}.
Open Scope float_scope.

(** The pipeline runs to its end exactly when at least two aligned samples
    remain: no value of the samples or of the geometry (zero, infinite,
    NaN) makes a later step raise. *)
Theorem pipeline_completes_iff (area gauge_length : float) (displacement load : ndarray) :
  is_Ret (pipeline area gauge_length displacement load) = true <->
  (2 <= Nat.min (length displacement) (length load))%nat.
Proof.
  split.
  - intros Hret.
    destruct (Nat.lt_ge_cases (Nat.min (length displacement) (length load)) 2)
      as [Hlt|Hge]; [|exact Hge].
    rewrite (pipeline_short area gauge_length displacement load Hlt) in Hret.
    discriminate Hret.
  - intros Hge.
    destruct (pipeline_total area gauge_length displacement load Hge) as [st ->].
    reflexivity.
Qed.

(** Samples beyond the common length of the two cleaned columns play no
    part: the pipeline gives the same outcome on the two truncated
    columns. *)
Theorem pipeline_ignores_tail (area gauge_length : float) (displacement load : ndarray) :
  let n := Nat.min (length displacement) (length load) in
  pipeline area gauge_length displacement load =
  pipeline area gauge_length (firstn n displacement) (firstn n load).
Proof.
  intros n. unfold pipeline. cbv zeta.
  destruct (aligned_lengths displacement load) as [Hd Hl]. cbv zeta in Hd, Hl.
  fold n in Hd, Hl. fold n.
  rewrite Hd, Hl, Nat.min_id, !firstn_firstn, Nat.min_id. reflexivity.
Qed.

Lemma dropna_no_nan (a : ndarray) : no_nan (dropna a).
Proof.
  unfold no_nan, dropna. apply Forall_forall. intros x Hx.
  apply filter_In in Hx. destruct Hx as [_ Hx]. apply negb_true_iff in Hx. exact Hx.
Qed.

Lemma firstn_no_nan (n : nat) (a : ndarray) : no_nan a -> no_nan (firstn n a).
Proof.
  unfold no_nan. revert n; induction a as [|x a IH]; intros [|n] H; simpl; auto.
  inversion H; subst. constructor; auto.
Qed.

(** What the handler returns when it returns a result body. *)
Lemma analyze_ok_inv (req : request) (body : payload) :
  analyze req = JsonOk body ->
  exists file disp_col load_col d l st,
    files_file req = Some file /\
    to_numeric_column (normalise_columns file) disp_col = Ret d /\
    to_numeric_column (normalise_columns file) load_col = Ret l /\
    pipeline (request_area req) (request_gauge_length req) (dropna d) (dropna l) = Ret st /\
    body = result_body st disp_col load_col.
Proof.
  unfold analyze.
  destruct (files_file req) as [file|]; [|discriminate].
  cbv zeta.
  destruct ((request_area req <=? 0) || (request_gauge_length req <=? 0)); [discriminate|].
  destruct file as [|c file]; [discriminate|]. cbn [pd_read_csv].
  unfold analyze_table. cbv zeta.
  destruct (detect_columns _) as [[disp_col|] [load_col|]]; try discriminate.
  destruct (analyze_columns _ _ _ _ _) as [b|e] eqn:Hcols; [|discriminate].
  intros [= <-]. unfold analyze_columns in Hcols.
  destruct (to_numeric_column _ disp_col) as [d|] eqn:Hd; cbn [bind] in Hcols; [|discriminate].
  destruct (to_numeric_column _ load_col) as [l|] eqn:Hl; cbn [bind] in Hcols; [|discriminate].
  destruct (pipeline _ _ _ _) as [st|] eqn:Hst; cbn [bind] in Hcols; [|discriminate].
  injection Hcols as <-.
  exists (c :: file), disp_col, load_col, d, l, st. auto.
Qed.

(** In every result body the six series have one length, and the
    displacement and load series hold no NaN. *)
Theorem result_series_aligned (req : request) (body : payload) :
  analyze req = JsonOk body ->
  let n := length (js_displacement body) in
  length (js_load body) = n /\ length (js_stress body) = n /\
  length (js_strain body) = n /\ length (js_youngs_modulus body) = n /\
  length (js_slope_angles body) = n /\
  no_nan (js_displacement body) /\ no_nan (js_load body).
Proof.
  intros Hok n.
  destruct (analyze_ok_inv req body Hok)
    as (file & disp_col & load_col & d & l & st & _ & _ & _ & Hst & ->).
  subst n. cbn [result_body js_displacement js_load js_stress js_strain
                js_youngs_modulus js_slope_angles].
  apply pipeline_inv in Hst.
  pose proof (run_lengths _ _ _ _ _ Hst) as HL. cbv zeta in HL.
  destruct HL as (_ & Hdisp & Hload & Hstress & Hstrain & Hym & Hang & _).
  repeat split; try congruence.
  - rewrite (run_displacement _ _ _ _ _ Hst). apply firstn_no_nan, dropna_no_nan.
  - rewrite (run_load _ _ _ _ _ Hst). apply firstn_no_nan, dropna_no_nan.
Qed.

(** A request with a file, a geometry that passes line 32, two detected
    columns each carried by one label, and at least two numeric samples in
    both, is answered with a result body: it names the two columns and
    holds the leading samples of the two cleaned columns. *)
Theorem analyze_succeeds (req : request) (file : DataFrame)
    (disp_col load_col : string) (d l : ndarray) :
  files_file req = Some file ->
  (request_area req <=? 0) || (request_gauge_length req <=? 0) = false ->
  detect_columns (map fst (normalise_columns file)) = (Some disp_col, Some load_col) ->
  to_numeric_column (normalise_columns file) disp_col = Ret d ->
  to_numeric_column (normalise_columns file) load_col = Ret l ->
  let n := Nat.min (length (dropna d)) (length (dropna l)) in
  (2 <= n)%nat ->
  exists body,
    analyze req = JsonOk body /\
    js_columns_used body = (disp_col, load_col) /\
    js_displacement body = firstn n (dropna d) /\
    js_load body = firstn n (dropna l).
Proof.
  intros Hfile Hpos Hcols Hd Hl n Hn.
  destruct (pipeline_total (request_area req) (request_gauge_length req)
              (dropna d) (dropna l) Hn) as [st Hst].
  exists (result_body st disp_col load_col).
  split.
  - rewrite (analyze_past_checks req file Hfile Hpos (detected_table_read _ _ _ Hcols)).
    unfold analyze_table. cbv zeta. rewrite Hcols.
    unfold analyze_columns. rewrite Hd, Hl. cbn [bind]. rewrite Hst. reflexivity.
  - apply pipeline_inv in Hst.
    cbn [result_body js_columns_used js_displacement js_load].
    rewrite (run_displacement _ _ _ _ _ Hst), (run_load _ _ _ _ _ Hst). auto.
Qed.

End Completion.

(** ** NaN in comparisons *)

Lemma is_nan_true (x : float) :
  PrimFloat.is_nan x = true -> Prim2SF x = S754_nan.
Proof.
  unfold PrimFloat.is_nan. rewrite FloatAxioms.eqb_spec, negb_true_iff.
  intros H. destruct (Prim2SF x) as [s|s| |s m e] eqn:Hx; try reflexivity;
    exfalso; revert H; rewrite (proj2 (SFeqb_self _)); discriminate.
Qed.

Lemma leb_nan_l (x y : float) :
  PrimFloat.is_nan x = true -> (x <=? y)%float = false.
Proof.
  intros H. rewrite FloatAxioms.leb_spec, (is_nan_true x H). reflexivity.
Qed.

Lemma leb_nan_r (x y : float) :
  PrimFloat.is_nan y = true -> (x <=? y)%float = false.
Proof.
  intros H. rewrite FloatAxioms.leb_spec, (is_nan_true y H).
  destruct (Prim2SF x); reflexivity.
Qed.

(** ** The maximum and its index (lines 97, 143, 166-173) *)

Lemma fold_maximum_nan (l : ndarray) (x : float) :
  PrimFloat.is_nan x = true -> fold_left np.maximum l x = x.
Proof.
  intros Hx. induction l as [|y l IH]; [reflexivity|].
  cbn [fold_left]. unfold np.maximum at 2. rewrite Hx, orb_true_r. exact IH.
Qed.

Lemma argmax_scan_reads_maximum (l pre : ndarray) (mp : float) (best : nat) :
  PrimFloat.is_nan mp = false ->
  (best < length pre)%nat ->
  nth best pre 0%float = mp ->
  nth (np.argmax_scan mp best (length pre) l) (pre ++ l) 0%float
  = fold_left np.maximum l mp.
Proof.
  revert pre mp best.
  induction l as [|x t IH]; intros pre mp best Hmp Hbest Hnth.
  - cbn [np.argmax_scan fold_left]. rewrite app_nil_r. exact Hnth.
  - assert (Hsplit : pre ++ x :: t = (pre ++ [x]) ++ t)
      by (rewrite <- app_assoc; reflexivity).
    assert (Hlen : length (pre ++ [x]) = S (length pre))
      by (rewrite length_app; simpl; lia).
    cbn [np.argmax_scan fold_left]. unfold np.maximum at 2. rewrite Hmp, orb_false_r.
    destruct (x <=? mp)%float eqn:Hle; cbn [negb].
    + rewrite Hsplit, <- Hlen. apply IH; auto.
      * rewrite Hlen. lia.
      * rewrite app_nth1 by exact Hbest. exact Hnth.
    + destruct (PrimFloat.is_nan x) eqn:Hx.
      * rewrite nth_middle. symmetry. apply fold_maximum_nan. exact Hx.
      * rewrite Hsplit, <- Hlen. apply IH; auto.
        -- rewrite Hlen. lia.
        -- apply nth_middle.
Qed.

(** [np.max] is the entry at the index [np.argmax] returns, NaN included. *)
Lemma max_at_argmax (a : ndarray) (m : float) (p : nat) :
  np.max a = Ret m -> np.argmax a = Ret p -> nth p a 0%float = m.
Proof.
  destruct a as [|x t]; [discriminate|].
  cbn [np.max np.argmax]. intros [= <-] [= <-].
  destruct (PrimFloat.is_nan x) eqn:Hx.
  - symmetry. apply fold_maximum_nan. exact Hx.
  - apply (argmax_scan_reads_maximum t [x] x 0%nat); auto.
Qed.

Section PeakAndFracture.
Context {lib : Numerics}.
Open Scope float_scope.

(** In a completed run the maximum stress is the stress at the peak index;
    the fracture point is the sample at the fracture index (strain, stress
    and angle read at that index, which is in range); so a fracture placed
    at the peak carries the maximum stress, and, the stress array holding
    no NaN, the fracture stress never exceeds the maximum stress. *)
Theorem fracture_point_at_index (area gauge_length : float)
    (displacement0 load0 : ndarray) (st : locals) :
  pipeline area gauge_length displacement0 load0 = Ret st ->
  let peak := Z.to_nat (peak_idx st) in
  let frac := Z.to_nat (fracture_idx st) in
  nth peak (stress_mpa st) 0 = max_stress_val st /\
  fracture_point st = {| pt_strain := nth frac (strain st) 0;
                         pt_stress := nth frac (stress_mpa st) 0;
                         pt_slope_angle := nth frac (slope_angles st) 0 |} /\
  (fracture_idx st = peak_idx st -> pt_stress (fracture_point st) = max_stress_val st) /\
  (no_nan (stress_mpa st) ->
     (pt_stress (fracture_point st) <=? max_stress_val st) = true).
Proof.
  intros Hst peak frac. apply pipeline_inv in Hst.
  pose proof (run_lengths _ _ _ _ _ Hst) as HL. cbv zeta in HL.
  destruct HL as (_ & _ & _ & Hstress & Hstrain & _ & Hang & Htan & _ & _).
  destruct (run_peak _ _ _ _ _ Hst) as [p [Hp Hpeak]].
  assert (Hpk : peak = p) by (subst peak; rewrite Hpeak; apply Nat2Z.id).
  pose proof (argmax_bound _ _ Hp) as Hpb.
  pose proof (run_fracture _ _ _ _ _ Hst) as Hf. rewrite Hpeak in Hf.
  apply fracture_index_bounds in Hf; [|lia].
  assert (Hfz : fracture_idx st = Z.of_nat frac) by (subst frac; lia).
  assert (Hfb : (frac < length (stress_mpa st))%nat) by lia.
  assert (Hmax : nth peak (stress_mpa st) 0 = max_stress_val st).
  { rewrite Hpk. apply max_at_argmax; [exact (run_max_stress _ _ _ _ _ Hst) | exact Hp]. }
  assert (Hpoint : fracture_point st =
            {| pt_strain := nth frac (strain st) 0;
               pt_stress := nth frac (stress_mpa st) 0;
               pt_slope_angle := nth frac (slope_angles st) 0 |}).
  { pose proof (run_fracture_point _ _ _ _ _ Hst) as Hfp.
    unfold point_at in Hfp. rewrite Hfz in Hfp.
    rewrite !getitem_in_range in Hfp by lia.
    cbn [bind] in Hfp. injection Hfp as <-. reflexivity. }
  split; [exact Hmax|]. split; [exact Hpoint|]. split.
  - intros Heq. rewrite Hpoint. cbn [pt_stress].
    replace frac with peak by (subst frac peak; rewrite Heq; reflexivity).
    exact Hmax.
  - intros Hnan. rewrite Hpoint. cbn [pt_stress]. rewrite <- Hmax, Hpk.
    destruct (argmax_first_maximum _ _ Hnan Hp) as (_ & Hall & _).
    apply Hall. exact Hfb.
Qed.

End PeakAndFracture.

(** ** The yield outputs (lines 116-138, 176) *)

Section YieldOutputs.
Context {lib : Numerics}.
Open Scope float_scope.

Ltac next_bind H :=
  match type of H with
  | bind ?m _ = Ret _ =>
      let v := fresh "v" in
      let Hv := fresh "Hv" in
      destruct m as [v|] eqn:Hv; cbn [bind] in H; [|discriminate H]
  end.

(** Lines 132-138: the offset line of a completed run. *)
Lemma run_offset_line (area gauge_length : float) (displacement0 load0 : ndarray)
    (st : locals) :
  pipeline area gauge_length displacement0 load0 = Ret st ->
  offset_line st =
  match yield_point st with
  | Some p => [(0.002, 0); (pt_strain p, pt_stress p)]
  | None => []
  end.
Proof.
  intros H. unfold pipeline in H. cbv zeta in H.
  do 4 next_bind H.
  destruct (yield_scan 0 _ _ _) as [yi|] eqn:Hyi; cbv beta iota in H.
  - destruct (point_at _ _ _ yi) as [p|] eqn:Hp; cbn [bind] in H; [|discriminate H].
    do 4 next_bind H. injection H as <-. reflexivity.
  - cbn [bind] in H. do 4 next_bind H. injection H as <-. reflexivity.
Qed.

(** In a completed run no yield is reported exactly when the test of line
    118 holds at no sample; and when the yield index [yi] is reported, the
    test fails at every index up to [yi] and holds at [yi + 1]: the scan
    stops at the first crossing. *)
Theorem yield_index_first_crossing (area gauge_length : float)
    (displacement0 load0 : ndarray) (st : locals) :
  pipeline area gauge_length displacement0 load0 = Ret st ->
  let crosses_at := fun i =>
    crosses (nth i (strain st) 0) (nth i (stress_mpa st) 0)
            (E st * (nth i (strain st) 0 - 0.002)) in
  (yield_index st = None <->
     forall i, (i < length (strain st))%nat -> crosses_at i = false) /\
  (forall yi, yield_index st = Some yi ->
     crosses_at (Z.to_nat (yi + 1)) = true /\
     forall j, (Z.of_nat j <= yi)%Z -> crosses_at j = false).
Proof.
  intros Hst crosses_at. apply pipeline_inv in Hst.
  pose proof (run_lengths _ _ _ _ _ Hst) as HL. cbv zeta in HL.
  destruct HL as (_ & _ & _ & Hstress & Hstrain & _ & _ & _ & Hoff & _).
  assert (Hss : length (stress_mpa st) = length (strain st)) by congruence.
  assert (Hos : length (offset_stress st) = length (strain st)) by congruence.
  pose proof (run_yield_index _ _ _ _ _ Hst) as Hscan.
  pose proof (run_offset _ _ _ _ _ Hst) as Hoffset.
  assert (Hat : forall i, (i < length (strain st))%nat ->
            crosses (nth i (strain st) 0) (nth i (stress_mpa st) 0)
                    (nth i (offset_stress st) 0) = crosses_at i).
  { intros i Hi. unfold crosses_at. rewrite Hoffset, offset_nth by exact Hi. reflexivity. }
  split; [split|].
  - intros Hnone i Hi. rewrite <- (Hat i Hi).
    rewrite Hnone in Hscan. symmetry in Hscan.
    apply (yield_scan_none _ _ _ _ Hss Hos Hscan). exact Hi.
  - intros Hall. destruct (yield_index st) as [yi|] eqn:Hyi; [|reflexivity].
    symmetry in Hscan.
    destruct (yield_scan_some _ _ _ _ _ Hss Hos Hscan) as [k [_ [Hk [Hc _]]]].
    rewrite (Hat k Hk), (Hall k Hk) in Hc. discriminate Hc.
  - intros yi Hyi. rewrite Hyi in Hscan. symmetry in Hscan.
    destruct (yield_scan_some _ _ _ _ _ Hss Hos Hscan) as [k [Hy [Hk [Hc Hbefore]]]].
    replace (Z.to_nat (yi + 1)) with k by lia.
    split; [rewrite <- (Hat k Hk); exact Hc|].
    intros j Hj. rewrite <- (Hat j) by lia. apply Hbefore. lia.
Qed.

(** The yield outputs of a completed run go together.  Without a yield
    index there is no yield point and the offset line is empty.  With a
    yield index there is a yield point and the offset line runs from
    [(0.002, 0)] to it; for an index [yi >= 0] the yield point is the sample
    at [yi].  The yield strength of the result body is the rounded stress of
    the yield point, or the rounded 0.0 without one. *)
Theorem yield_outputs_agree (area gauge_length : float)
    (displacement0 load0 : ndarray) (st : locals) :
  pipeline area gauge_length displacement0 load0 = Ret st ->
  (yield_index st = None ->
     yield_point st = None /\ offset_line st = [] /\
     forall disp_col load_col,
       yield_strength_mpa (js_metrics (result_body st disp_col load_col)) = py_round 0 2) /\
  (forall yi, yield_index st = Some yi ->
     exists p,
       yield_point st = Some p /\
       offset_line st = [(0.002, 0); (pt_strain p, pt_stress p)] /\
       (forall disp_col load_col,
          yield_strength_mpa (js_metrics (result_body st disp_col load_col))
          = py_round (pt_stress p) 2) /\
       ((0 <= yi)%Z ->
          p = {| pt_strain := nth (Z.to_nat yi) (strain st) 0;
                 pt_stress := nth (Z.to_nat yi) (stress_mpa st) 0;
                 pt_slope_angle := nth (Z.to_nat yi) (slope_angles st) 0 |})).
Proof.
  intros Hst. pose proof (run_offset_line _ _ _ _ _ Hst) as Hline.
  apply pipeline_inv in Hst.
  pose proof (run_lengths _ _ _ _ _ Hst) as HL. cbv zeta in HL.
  destruct HL as (_ & _ & _ & Hstress & Hstrain & _ & Hang & _ & Hoff & _).
  assert (Hss : length (stress_mpa st) = length (strain st)) by congruence.
  assert (Hos : length (offset_stress st) = length (strain st)) by congruence.
  pose proof (run_yield_point _ _ _ _ _ Hst) as Hpoint.
  split.
  - intros Hnone. rewrite Hnone in Hpoint. rewrite Hpoint in Hline.
    repeat split; auto.
    intros disp_col load_col. cbn. rewrite Hpoint. reflexivity.
  - intros yi Hyi. rewrite Hyi in Hpoint. destruct Hpoint as [p [Hp Hyp]].
    rewrite Hyp in Hline. exists p. repeat split; auto.
    + intros disp_col load_col. cbn. rewrite Hyp. reflexivity.
    + intros Hpos.
      pose proof (run_yield_index _ _ _ _ _ Hst) as Hscan. rewrite Hyi in Hscan.
      symmetry in Hscan.
      pose proof (yield_scan_range _ _ _ _ Hss Hos Hscan) as Hrange.
      unfold point_at in Hp.
      replace yi with (Z.of_nat (Z.to_nat yi)) in Hp by lia.
      rewrite !getitem_in_range in Hp by lia.
      cbn [bind] in Hp. injection Hp as <-. reflexivity.
Qed.

End YieldOutputs.

(** ** The fracture index and the steepest post-peak slope (lines 146-164) *)

(** The scan of [np.argmin], started after the prefix [pre] whose first
    minimum is at [best], ends at the first minimum of the whole array. *)
Lemma argmin_scan_spec (l pre : ndarray) (mp : float) (best : nat) :
  no_nan (pre ++ l) ->
  (best < length pre)%nat ->
  nth best pre 0%float = mp ->
  (forall j, (j < length pre)%nat -> (mp <=? nth j pre 0)%float = true) ->
  (forall j, (j < best)%nat -> (nth j pre 0 <=? mp)%float = false) ->
  let r := np.argmin_scan mp best (length pre) l in
  (r < length (pre ++ l))%nat /\
  (forall j, (j < length (pre ++ l))%nat ->
     (nth r (pre ++ l) 0 <=? nth j (pre ++ l) 0)%float = true) /\
  (forall j, (j < r)%nat ->
     (nth j (pre ++ l) 0 <=? nth r (pre ++ l) 0)%float = false).
Proof.
  revert pre mp best.
  induction l as [|x t IH]; intros pre mp best Hnan Hbest Hmp Hall Hfirst; cbn zeta.
  - cbn [np.argmin_scan]. rewrite app_nil_r. rewrite Hmp. auto.
  - assert (Hx : PrimFloat.is_nan x = false).
    { unfold no_nan in Hnan. rewrite Forall_forall in Hnan.
      apply Hnan. apply in_or_app. right. left. reflexivity. }
    assert (Hmpn : PrimFloat.is_nan mp = false).
    { rewrite <- Hmp.
      replace (nth best pre 0%float) with (nth best (pre ++ x :: t) 0%float)
        by (apply app_nth1; exact Hbest).
      apply no_nan_nth; [exact Hnan | rewrite length_app; lia]. }
    assert (Hsplit : pre ++ x :: t = (pre ++ [x]) ++ t)
      by (rewrite <- app_assoc; reflexivity).
    assert (Hlen : length (pre ++ [x]) = S (length pre))
      by (rewrite length_app; simpl; lia).
    cbn [np.argmin_scan]. rewrite Hx.
    destruct (mp <=? x)%float eqn:Hle; cbn [negb].
    + rewrite Hsplit, <- Hlen.
      apply IH.
      * rewrite <- Hsplit. exact Hnan.
      * rewrite Hlen. lia.
      * rewrite app_nth1 by exact Hbest. exact Hmp.
      * intros j Hj. rewrite Hlen in Hj.
        destruct (Nat.eq_dec j (length pre)) as [->|Hne].
        -- rewrite nth_middle. exact Hle.
        -- rewrite app_nth1 by lia. apply Hall. lia.
      * intros j Hj. rewrite app_nth1 by lia. apply Hfirst. exact Hj.
    + pose proof (leb_total mp x Hmpn Hx Hle) as Hxm.
      rewrite Hsplit, <- Hlen.
      apply IH.
      * rewrite <- Hsplit. exact Hnan.
      * rewrite Hlen. lia.
      * apply nth_middle.
      * intros j Hj. rewrite Hlen in Hj.
        destruct (Nat.eq_dec j (length pre)) as [->|Hne].
        -- rewrite nth_middle. apply leb_refl. exact Hx.
        -- rewrite app_nth1 by lia.
           apply leb_trans with mp; [exact Hxm | apply Hall; lia].
      * intros j Hj. rewrite app_nth1 by lia.
        destruct (nth j pre 0 <=? x)%float eqn:Hjx; [|reflexivity].
        rewrite <- Hle. symmetry.
        apply leb_trans with (nth j pre 0%float); [apply Hall; lia | exact Hjx].
Qed.

(** On an array without NaN, [np.argmin] returns the first index that
    attains the global minimum. *)
Lemma argmin_first_minimum (a : ndarray) (p : nat) :
  no_nan a -> np.argmin a = Ret p ->
  (p < length a)%nat /\
  (forall j, (j < length a)%nat -> (nth p a 0 <=? nth j a 0)%float = true) /\
  (forall j, (j < p)%nat -> (nth j a 0 <=? nth p a 0)%float = false).
Proof.
  intros Hnan H. destruct a as [|x t]; [discriminate H|].
  cbn [np.argmin] in H.
  assert (Hx : PrimFloat.is_nan x = false) by (inversion Hnan; assumption).
  rewrite Hx in H. injection H as <-.
  apply (argmin_scan_spec t [x] x 0%nat); auto.
  - intros j Hj. simpl in Hj. replace j with 0%nat by lia. apply leb_refl. exact Hx.
  - intros j Hj. lia.
Qed.

Lemma nth_skipn (k j : nat) (a : ndarray) :
  nth j (skipn k a) 0%float = nth (k + j) a 0%float.
Proof.
  revert a; induction k as [|k IH]; intros a; [reflexivity|].
  destruct a as [|x a]; [destruct j; reflexivity|]. apply IH.
Qed.

Section FractureCases.
Context {lib : Numerics}.
Open Scope float_scope.

(** What [fracture_index] returns from a peak inside the array: the peak,
    or the index before a later index [m] whose slope is below [-0.05 * E]
    and is what [np.argmin] finds after the peak. *)
Lemma fracture_index_cases_at (tangent : ndarray) (Emod : float) (peak : nat) (f : Z) :
  (peak < length tangent)%nat ->
  fracture_index tangent Emod (Z.of_nat peak) = Ret f ->
  f = Z.of_nat peak \/
  exists m : nat,
    (peak < m < length tangent)%nat /\ f = (Z.of_nat m - 1)%Z /\
    (nth m tangent 0 <? -0.05 * Emod) = true /\
    np.argmin (skipn peak tangent) = Ret (m - peak)%nat.
Proof.
  intros Hp. unfold fracture_index. rewrite Nat2Z.id.
  pose proof (length_skipn peak tangent) as Hlen.
  destruct (1 <? length (skipn peak tangent))%nat; [|intros [= <-]; auto].
  destruct (np.argmin (skipn peak tangent)) as [loc|] eqn:Hloc; cbn [bind]; [|discriminate].
  pose proof (argmin_bound _ _ Hloc) as Hlb.
  rewrite (getitem_in_range _ _ Hlb). cbn [bind]. rewrite nth_skipn.
  destruct (nth (peak + loc) tangent 0 <? -0.05 * Emod) eqn:Hthr; intros [= <-]; auto.
  destruct loc as [|loc]; [left; lia|].
  right. exists (peak + S loc)%nat. repeat split; try lia; auto.
  replace (peak + S loc - peak)%nat with (S loc) by lia. reflexivity.
Qed.

(** In a completed run the fracture index is the peak index, or the index
    just before a later index [m] whose tangent modulus is below
    [-0.05 * E]; the tangent moduli from the peak on holding no NaN, [m] is
    the first index from the peak on with the least tangent modulus.  A peak
    at the last sample, or no slope below [-0.05 * E] from the peak on, puts
    the fracture at the peak. *)
Theorem fracture_index_cases (area gauge_length : float)
    (displacement0 load0 : ndarray) (st : locals) :
  pipeline area gauge_length displacement0 load0 = Ret st ->
  let peak := Z.to_nat (peak_idx st) in
  let n := length (tangent_modulus_arr st) in
  let slope := fun i => nth i (tangent_modulus_arr st) 0 in
  (fracture_idx st = peak_idx st \/
   exists m : nat,
     (peak < m < n)%nat /\ fracture_idx st = (Z.of_nat m - 1)%Z /\
     (slope m <? -0.05 * E st) = true /\
     (no_nan (skipn peak (tangent_modulus_arr st)) ->
        (forall j, (peak <= j < n)%nat -> (slope m <=? slope j) = true) /\
        (forall j, (peak <= j < m)%nat -> (slope j <=? slope m) = false))) /\
  (S peak = n -> fracture_idx st = peak_idx st) /\
  ((forall j, (peak <= j < n)%nat -> (slope j <? -0.05 * E st) = false) ->
   fracture_idx st = peak_idx st).
Proof.
  intros Hst peak n slope. apply pipeline_inv in Hst.
  pose proof (run_lengths _ _ _ _ _ Hst) as HL. cbv zeta in HL.
  destruct HL as (_ & _ & _ & Hstress & _ & _ & _ & Htan & _ & _).
  destruct (run_peak _ _ _ _ _ Hst) as [p [Hp Hpeak]].
  assert (Hpk : peak = p) by (subst peak; rewrite Hpeak; apply Nat2Z.id).
  pose proof (argmax_bound _ _ Hp) as Hpb.
  assert (Hpn : (p < n)%nat) by (subst n; lia).
  pose proof (run_fracture _ _ _ _ _ Hst) as Hf. rewrite Hpeak in Hf.
  destruct (fracture_index_cases_at _ _ _ _ Hpn Hf) as [Hfp|(m & Hm & Hfm & Hthr & Hmin)].
  - split; [left; congruence|]. split; intros _; congruence.
  - rewrite Hpk. split; [|split].
    + right. exists m. repeat split; try lia; auto.
      * intros j Hj.
        destruct (argmin_first_minimum _ _ H Hmin) as (_ & Hall & _).
        specialize (Hall (j - p)%nat). rewrite !nth_skipn in Hall.
        replace (p + (m - p))%nat with m in Hall by lia.
        replace (p + (j - p))%nat with j in Hall by lia.
        apply Hall. rewrite length_skipn. fold n. lia.
      * intros j Hj.
        destruct (argmin_first_minimum _ _ H Hmin) as (_ & _ & Hfirst).
        specialize (Hfirst (j - p)%nat). rewrite !nth_skipn in Hfirst.
        replace (p + (m - p))%nat with m in Hfirst by lia.
        replace (p + (j - p))%nat with j in Hfirst by lia.
        apply Hfirst. lia.
    + intros Hlast. lia.
    + intros Hnone. specialize (Hnone m ltac:(lia)). unfold slope in Hnone.
      rewrite Hnone in Hthr. discriminate Hthr.
Qed.

End FractureCases.

(** ** Zeros and NaN through the unit conversion (lines 29-33, 72-82) *)

Lemma eqb_zero_inv (x : float) :
  (x =? 0)%float = true -> exists s, Prim2SF x = S754_zero s.
Proof.
  rewrite FloatAxioms.eqb_spec.
  change (Prim2SF 0%float) with (S754_zero false).
  destruct (Prim2SF x) as [s|s| |s m e]; try discriminate; [eauto | |];
    destruct s; discriminate.
Qed.

Lemma ltb_zero_inv (a : float) :
  (0 <? a)%float = true ->
  Prim2SF a = S754_infinity false \/ exists m e, Prim2SF a = S754_finite false m e.
Proof.
  rewrite FloatAxioms.ltb_spec.
  change (Prim2SF 0%float) with (S754_zero false).
  destruct (Prim2SF a) as [s|s| |s m e]; try discriminate;
    destruct s; try discriminate; eauto.
Qed.

(** A zero divided by a positive float is a zero. *)
Lemma div_zero_positive (x a : float) :
  (x =? 0)%float = true -> (0 <? a)%float = true -> (x / a =? 0)%float = true.
Proof.
  intros Hx Ha.
  destruct (eqb_zero_inv x Hx) as [s Hs].
  rewrite FloatAxioms.eqb_spec, FloatAxioms.div_spec, Hs.
  change (Prim2SF 0%float) with (S754_zero false).
  destruct (ltb_zero_inv a Ha) as [->|(m & e & ->)]; reflexivity.
Qed.

Lemma is_nan_of_spec (x : float) :
  Prim2SF x = S754_nan -> PrimFloat.is_nan x = true.
Proof.
  intros H. unfold PrimFloat.is_nan. rewrite FloatAxioms.eqb_spec, H. reflexivity.
Qed.

(** Dividing by NaN, or dividing NaN, gives NaN. *)
Lemma div_nan_r (x a : float) :
  PrimFloat.is_nan a = true -> PrimFloat.is_nan (x / a) = true.
Proof.
  intros Ha. apply is_nan_of_spec.
  rewrite FloatAxioms.div_spec, (is_nan_true a Ha).
  destruct (Prim2SF x); reflexivity.
Qed.

Lemma div_nan_l (x a : float) :
  PrimFloat.is_nan x = true -> PrimFloat.is_nan (x / a) = true.
Proof.
  intros Hx. apply is_nan_of_spec.
  rewrite FloatAxioms.div_spec, (is_nan_true x Hx). reflexivity.
Qed.

Section UnitConversion.
Context {lib : Numerics} {txt : Text}.
Open Scope float_scope.

Lemma youngs_modulus_entry (stress strain_arr : ndarray) (i : nat) (s e : float) :
  nth_error stress i = Some s -> nth_error strain_arr i = Some e ->
  nth_error (youngs_modulus stress strain_arr) i = Some (if e =? 0 then 0 else s / e).
Proof.
  intros Hs He. unfold youngs_modulus, np.where_.
  rewrite (map2_nth_error _ _ _ i (negb (e =? 0)) (s / e)).
  - destruct (e =? 0); reflexivity.
  - rewrite nth_error_map, He. reflexivity.
  - apply map2_nth_error; assumption.
Qed.

(** With a positive area and a positive gauge length, a sample without
    load has a zero stress, and a sample without displacement has a zero
    strain and the Young's modulus 0: an all-zero column gives an all-zero
    series, and no division by a zero strain reaches the output. *)
Theorem zero_samples_stay_zero (area gauge_length : float) (displacement load : ndarray) :
  (0 <? area) = true -> (0 <? gauge_length) = true ->
  length displacement = length load ->
  let stress := to_stress_mpa load area in
  let strain_arr := to_strain displacement gauge_length in
  let ym := youngs_modulus stress strain_arr in
  forall i, (i < length load)%nat ->
    (is_zero_value (nth i load 0) = true -> is_zero_value (nth i stress 0) = true) /\
    (is_zero_value (nth i displacement 0) = true ->
       is_zero_value (nth i strain_arr 0) = true /\ nth i ym 0 = 0).
Proof.
  intros Harea Hgauge Hlen stress strain_arr ym i Hi.
  assert (Hstress : nth i stress 0 = nth i load 0 / area / 1e6).
  { subst stress. unfold to_stress_mpa. rewrite map_map.
    apply nth_error_nth. rewrite nth_error_map, (nth_error_nth' load 0 Hi). reflexivity. }
  assert (Hid : (i < length displacement)%nat) by lia.
  assert (Hstrain : nth i strain_arr 0 = nth i displacement 0 / 1000 / gauge_length).
  { subst strain_arr. unfold to_strain.
    apply nth_error_nth.
    rewrite nth_error_map, (nth_error_nth' displacement 0 Hid). reflexivity. }
  unfold is_zero_value. split.
  - intros Hz. rewrite Hstress.
    apply div_zero_positive; [|reflexivity].
    apply div_zero_positive; assumption.
  - intros Hz.
    assert (Hsz : (nth i strain_arr 0 =? 0) = true).
    { rewrite Hstrain. apply div_zero_positive; [|exact Hgauge].
      apply div_zero_positive; [exact Hz | reflexivity]. }
    split; [exact Hsz|].
    assert (Hs : nth_error stress i = Some (nth i stress 0)).
    { apply nth_error_nth'. subst stress. rewrite to_stress_mpa_length. exact Hi. }
    assert (He : nth_error strain_arr i = Some (nth i strain_arr 0)).
    { apply nth_error_nth'. subst strain_arr. rewrite to_strain_length. exact Hid. }
    apply nth_error_nth. subst ym.
    rewrite (youngs_modulus_entry _ _ i _ _ Hs He), Hsz. reflexivity.
Qed.

(** The check of line 32 lets a NaN area through ([nan <= 0] is false): the
    request is not answered with the 400 response of line 33, and every
    stress of a result body it leads to is NaN. *)
Theorem nan_area_not_rejected (req : request) (file : DataFrame) :
  files_file req = Some file ->
  PrimFloat.is_nan (request_area req) = true ->
  (request_gauge_length req <=? 0) = false ->
  analyze req <> JsonError 400 ParametersNotPositive /\
  forall body, analyze req = JsonOk body ->
    Forall (fun s => PrimFloat.is_nan s = true) (js_stress body).
Proof.
  intros Hfile Hnan Hgauge. split.
  - unfold analyze. rewrite Hfile. cbv zeta.
    rewrite (leb_nan_l _ 0 Hnan), Hgauge. cbn [orb].
    destruct (pd_read_csv file) as [table|]; [|discriminate].
    unfold analyze_table. cbv zeta.
    destruct (detect_columns _) as [[disp_col|] [load_col|]]; try discriminate.
    destruct (analyze_columns _ _ _ _ _); discriminate.
  - intros body Hok.
    destruct (analyze_ok_inv req body Hok)
      as (file' & disp_col & load_col & d & l & st & _ & _ & _ & Hst & ->).
    cbn [result_body js_stress].
    apply pipeline_inv in Hst.
    rewrite (run_stress _ _ _ _ _ Hst). unfold to_stress_mpa.
    apply Forall_forall. intros s Hs.
    apply in_map_iff in Hs. destruct Hs as [q [<- Hq]].
    apply in_map_iff in Hq. destruct Hq as [x [<- _]].
    apply div_nan_l. apply div_nan_r. exact Hnan.
Qed.

End UnitConversion.

(** ** What the geometry reaches (lines 72-77, 97-98, 143) *)

Section Geometry.
Context {lib : Numerics}.
Open Scope float_scope.

(** The gauge length reaches the strain only, and the area the stress only:
    two completed runs on the same columns with the same area report the
    same stress series, maximum stress and peak index whatever their gauge
    lengths, and two with the same gauge length report the same strain
    series and maximum strain whatever their areas. *)
Theorem geometry_separation (area1 area2 gauge1 gauge2 : float)
    (displacement0 load0 : ndarray) (st1 st2 : locals) :
  pipeline area1 gauge1 displacement0 load0 = Ret st1 ->
  pipeline area2 gauge2 displacement0 load0 = Ret st2 ->
  displacement st1 = displacement st2 /\ load st1 = load st2 /\
  max_load st1 = max_load st2 /\
  (area1 = area2 ->
     stress_mpa st1 = stress_mpa st2 /\ max_stress_val st1 = max_stress_val st2 /\
     peak_idx st1 = peak_idx st2) /\
  (gauge1 = gauge2 ->
     strain st1 = strain st2 /\ max_strain_val st1 = max_strain_val st2).
Proof.
  intros H1 H2. apply pipeline_inv in H1. apply pipeline_inv in H2.
  assert (Hd : displacement st1 = displacement st2)
    by (rewrite (run_displacement _ _ _ _ _ H1), (run_displacement _ _ _ _ _ H2); reflexivity).
  assert (Hl : load st1 = load st2)
    by (rewrite (run_load _ _ _ _ _ H1), (run_load _ _ _ _ _ H2); reflexivity).
  split; [exact Hd|]. split; [exact Hl|]. split; [|split].
  - pose proof (run_max_load _ _ _ _ _ H1) as M1.
    pose proof (run_max_load _ _ _ _ _ H2) as M2.
    rewrite Hl, M2 in M1. injection M1 as M1. auto.
  - intros <-.
    assert (Hs : stress_mpa st1 = stress_mpa st2)
      by (rewrite (run_stress _ _ _ _ _ H1), (run_stress _ _ _ _ _ H2), Hl; reflexivity).
    split; [exact Hs|]. split.
    + pose proof (run_max_stress _ _ _ _ _ H1) as M1.
      pose proof (run_max_stress _ _ _ _ _ H2) as M2.
      rewrite Hs, M2 in M1. injection M1 as M1. auto.
    + destruct (run_peak _ _ _ _ _ H1) as [p1 [P1 ->]].
      destruct (run_peak _ _ _ _ _ H2) as [p2 [P2 ->]].
      rewrite Hs, P2 in P1. injection P1 as ->. reflexivity.
  - intros <-.
    assert (Hs : strain st1 = strain st2)
      by (rewrite (run_strain _ _ _ _ _ H1), (run_strain _ _ _ _ _ H2), Hd; reflexivity).
    split; [exact Hs|].
    pose proof (run_max_strain _ _ _ _ _ H1) as M1.
    pose proof (run_max_strain _ _ _ _ _ H2) as M2.
    rewrite Hs, M2 in M1. injection M1 as M1. auto.
Qed.

End Geometry.

(** ** The further properties on concrete runs *)

Lemma undetected_columns_witness :
  files_file Requests.no_force_request = Some Requests.no_force_file /\
  Requests.no_force_file <> [] /\
  analyze (lib := Sample.numerics) (txt := Sample.text) Requests.no_force_request
  = JsonError 400 (ColumnsNotDetected ["time"; "displacement"]%string).
Proof.
  split; [reflexivity|]. split; [discriminate|].
  apply (undetected_columns_rejected (lib := Sample.numerics) (txt := Sample.text)
           Requests.no_force_request Requests.no_force_file);
    [reflexivity | reflexivity | discriminate |].
  right. intros c [<-|[<-|[]]]; reflexivity.
Defined.

Lemma result_series_witness :
  exists body,
    analyze (lib := Sample.numerics) (txt := Sample.text) Requests.scenario1_request = JsonOk body /\
    length (js_stress body) = length (js_displacement body) /\
    no_nan (js_load body).
Proof.
  destruct (analyze (lib := Sample.numerics) (txt := Sample.text) Requests.scenario1_request)
    as [status message|body] eqn:H; [vm_compute in H; discriminate H|].
  exists body. split; [reflexivity|].
  destruct (result_series_aligned (lib := Sample.numerics) (txt := Sample.text) _ body H)
    as (_ & Hs & _ & _ & _ & _ & Hl).
  split; [exact Hs | exact Hl].
Defined.

Lemma analyze_succeeds_witness :
  exists body,
    analyze (lib := Sample.numerics) (txt := Sample.text) Requests.scenario1_request = JsonOk body /\
    js_columns_used body = ("extension (mm)", "force (n)")%string /\
    js_load body = [0; 100; 200; 300; 250; 260].
Proof.
  destruct (analyze_succeeds (lib := Sample.numerics) (txt := Sample.text) Requests.scenario1_request
              Requests.scenario1_file "extension (mm)" "force (n)"
              [0; 1; 2; 4; 6; 7] [0; 100; 200; 300; 250; 260])
    as (body & Hok & Hcols & _ & Hload); try reflexivity.
  - vm_compute. lia.
  - exists body. split; [exact Hok|]. split; [exact Hcols|]. exact Hload.
Defined.

Lemma fracture_point_witness :
  exists st,
    pipeline (lib := Sample.numerics) Runs.scenario1_area Runs.scenario1_gauge_length
      Runs.scenario1_displacement Runs.scenario1_load = Ret st /\
    peak_idx st = 3%Z /\
    nth 3 (stress_mpa st) 0 = max_stress_val st.
Proof.
  destruct (pipeline_total (lib := Sample.numerics) Runs.scenario1_area
              Runs.scenario1_gauge_length Runs.scenario1_displacement Runs.scenario1_load)
    as [st H]; [simpl; lia|].
  run_value H Hst.
  assert (Hpeak : peak_idx st = 3%Z) by (rewrite <- Hst; reflexivity).
  exists st. split; [exact H|]. split; [exact Hpeak|].
  destruct (fracture_point_at_index (lib := Sample.numerics) _ _ _ _ st H) as (Hmax & _).
  rewrite Hpeak in Hmax. exact Hmax.
Defined.

Lemma yield_first_crossing_witness :
  exists st,
    pipeline (lib := Sample.numerics) Runs.scenario1_area Runs.scenario1_gauge_length
      Runs.scenario1_displacement Runs.scenario1_load = Ret st /\
    yield_index st = Some 2%Z /\
    crosses (nth 1 (strain st) 0) (nth 1 (stress_mpa st) 0)
            (E st * (nth 1 (strain st) 0 - 0.002)) = false.
Proof.
  destruct (pipeline_total (lib := Sample.numerics) Runs.scenario1_area
              Runs.scenario1_gauge_length Runs.scenario1_displacement Runs.scenario1_load)
    as [st H]; [simpl; lia|].
  run_value H Hst.
  assert (Hyi : yield_index st = Some 2%Z) by (rewrite <- Hst; reflexivity).
  exists st. split; [exact H|]. split; [exact Hyi|].
  destruct (yield_index_first_crossing (lib := Sample.numerics) _ _ _ _ st H)
    as (_ & Hsome).
  destruct (Hsome 2%Z Hyi) as (_ & Hbefore).
  apply (Hbefore 1%nat). lia.
Defined.

Lemma yield_outputs_witness :
  exists st p,
    pipeline (lib := Sample.numerics) Runs.scenario1_area Runs.scenario1_gauge_length
      Runs.scenario1_displacement Runs.scenario1_load = Ret st /\
    yield_index st = Some 2%Z /\
    yield_point st = Some p /\
    offset_line st = [(0.002, 0); (pt_strain p, pt_stress p)] /\
    pt_strain p = nth 2 (strain st) 0.
Proof.
  destruct (pipeline_total (lib := Sample.numerics) Runs.scenario1_area
              Runs.scenario1_gauge_length Runs.scenario1_displacement Runs.scenario1_load)
    as [st H]; [simpl; lia|].
  run_value H Hst.
  assert (Hyi : yield_index st = Some 2%Z) by (rewrite <- Hst; reflexivity).
  destruct (yield_outputs_agree (lib := Sample.numerics) _ _ _ _ st H) as (_ & Hsome).
  destruct (Hsome 2%Z Hyi) as (p & Hp & Hline & _ & Hat).
  exists st, p. split; [exact H|]. split; [exact Hyi|]. split; [exact Hp|].
  split; [exact Hline|].
  rewrite Hat by lia. reflexivity.
Defined.

Lemma fracture_cases_witness :
  exists st,
    pipeline (lib := Sample.numerics) Runs.scenario1_area Runs.scenario1_gauge_length
      Runs.scenario1_displacement Runs.scenario1_load = Ret st /\
    (forall j, (3 <= j < 6)%nat ->
       (nth j (tangent_modulus_arr st) 0 <? -0.05 * E st) = false) /\
    fracture_idx st = peak_idx st.
Proof.
  destruct (pipeline_total (lib := Sample.numerics) Runs.scenario1_area
              Runs.scenario1_gauge_length Runs.scenario1_displacement Runs.scenario1_load)
    as [st H]; [simpl; lia|].
  run_value H Hst.
  assert (Hslopes : forall j, (3 <= j < 6)%nat ->
            (nth j (tangent_modulus_arr st) 0 <? -0.05 * E st) = false).
  { intros j Hj. rewrite <- Hst. cbn [tangent_modulus_arr E].
    assert (Hcases : j = 3%nat \/ j = 4%nat \/ j = 5%nat) by lia.
    destruct Hcases as [ -> | [ -> | -> ] ]; reflexivity. }
  exists st. split; [exact H|]. split; [exact Hslopes|].
  destruct (fracture_index_cases (lib := Sample.numerics) _ _ _ _ st H) as (_ & _ & Hnone).
  apply Hnone. intros j Hj. apply Hslopes.
  rewrite <- Hst in Hj. cbn [peak_idx tangent_modulus_arr] in Hj. simpl in Hj. lia.
Defined.

Lemma zero_samples_witness :
  (0 <? 0.0003) = true /\ (0 <? 0.05) = true /\
  is_zero_value (nth 0 (to_stress_mpa Runs.scenario1_load 0.0003) 0) = true.
Proof.
  split; [reflexivity|]. split; [reflexivity|].
  apply (zero_samples_stay_zero 0.0003 0.05
           Runs.scenario1_displacement Runs.scenario1_load);
    try reflexivity.
  simpl. lia.
Defined.

Lemma nan_area_witness :
  PrimFloat.is_nan (request_area Requests.nan_area_request) = true /\
  analyze (lib := Sample.numerics) (txt := Sample.text) Requests.nan_area_request
  <> JsonError 400 ParametersNotPositive.
Proof.
  split; [reflexivity|].
  apply (nan_area_not_rejected (lib := Sample.numerics) (txt := Sample.text)
           Requests.nan_area_request Requests.scenario1_file); reflexivity.
Defined.

Lemma geometry_separation_witness :
  exists st1 st2,
    pipeline (lib := Sample.numerics) Runs.scenario1_area 0.05
      Runs.scenario1_displacement Runs.scenario1_load = Ret st1 /\
    pipeline (lib := Sample.numerics) Runs.scenario1_area 0.1
      Runs.scenario1_displacement Runs.scenario1_load = Ret st2 /\
    stress_mpa st1 = stress_mpa st2 /\ peak_idx st1 = peak_idx st2.
Proof.
  destruct (pipeline_total (lib := Sample.numerics) Runs.scenario1_area 0.05
              Runs.scenario1_displacement Runs.scenario1_load) as [st1 H1]; [simpl; lia|].
  destruct (pipeline_total (lib := Sample.numerics) Runs.scenario1_area 0.1
              Runs.scenario1_displacement Runs.scenario1_load) as [st2 H2]; [simpl; lia|].
  exists st1, st2. split; [exact H1|]. split; [exact H2|].
  destruct (geometry_separation (lib := Sample.numerics) _ _ _ _ _ _ st1 st2 H1 H2)
    as (_ & _ & _ & Harea & _).
  destruct (Harea eq_refl) as (Hs & _ & Hp). split; assumption.
Defined.
